(** * objective-c-mangler: the Mach-O patching engine of [src/main.cpp]

    A shallow embedding of the patcher and the properties of its
    specification.  Buffers are lists of bytes, machine integers are [Z]
    with their wrap-around written out, the exclusion set is a [gset], and
    every function that may touch memory outside a buffer, or loop without
    end, returns an [option]: [None] stands for "no defined result".

    What the embedding takes from the libraries the source calls: LLVM hands
    out section contents as views into the bytes of the file, the same bytes
    [MemoryBuffer::getFile] reads into [OriginalMB]; a slice of a universal
    binary is created over the bytes that start at its offset; pointers are
    loaded in the byte order of a little-endian host; CLI11 runs the
    validation callback after its own checks; writing the file is one step. *)

From Stdlib Require Import ZArith Lia Strings.Byte Strings.String.
From stdpp Require Import base option list gmap.

Local Open Scope Z_scope.

(** ** Bytes and C strings *)

#[global] Instance byte_eq_dec : EqDecision byte := Byte.byte_eq_dec.

#[global] Instance byte_countable : Countable byte :=
  inj_countable Byte.to_N Byte.of_N Byte.of_to_N.

Definition NUL : byte := Byte.x00.

(** A [std::string] / [StringRef] payload: the bytes without terminator. *)
Abbreviation bytes := (list byte).

Definition lit (s : string) : bytes := list_byte_of_string s.
Arguments lit s%_string.

(** [strlen]-style view of the bytes that start a buffer: everything before
    the first NUL.  The end of the buffer acts as a terminator, as
    [MemoryBuffer] guarantees for [OriginalMB]. *)
Fixpoint c_str (l : bytes) : bytes :=
  match l with
  | [] => []
  | b :: t => if decide (b = NUL) then [] else b :: c_str t
  end.

(** [StringRef(Buf + p)] for a buffer-relative position [p]. *)
Definition cstr_at (Buf : bytes) (p : Z) : option bytes :=
  if decide (0 <= p <= Z.of_nat (length Buf)) then Some (c_str (drop (Z.to_nat p) Buf))
  else None.

(** [memcpy(Buf + p, src, length src)]: defined when the destination range
    lies inside the buffer. *)
Definition memcpy (Buf : bytes) (p : Z) (src : bytes) : option bytes :=
  if decide (0 <= p /\ p + Z.of_nat (length src) <= Z.of_nat (length Buf))
  then Some (list_inserts (Z.to_nat p) src Buf)
  else None.

(** The first [n] bytes behind [s.c_str()]: the payload and its terminator;
    reading further is undefined. *)
Definition c_str_read (s : bytes) (n : nat) : option bytes :=
  if decide (n <= S (length s))%nat then Some (take n (s ++ [NUL])) else None.

(** Little-endian value of a run of bytes (the host byte order of the
    unaligned loads [*(const uint64_t* )p] and [*(const uint32_t* )p]). *)
Fixpoint le_value (l : bytes) : Z :=
  match l with
  | [] => 0
  | b :: t => Z.of_N (Byte.to_N b) + 256 * le_value t
  end.

Definition load (PtrSize : Z) (Buf : bytes) (p : Z) : option Z :=
  if decide (0 <= p /\ p + PtrSize <= Z.of_nat (length Buf))
  then Some (le_value (take (Z.to_nat PtrSize) (drop (Z.to_nat p) Buf)))
  else None.

Definition wrap32 (z : Z) : Z := z mod 2 ^ 32.
Definition wrap64 (z : Z) : Z := z mod 2 ^ 64.

(** ** [std::string::find] and [std::string::replace] *)

Fixpoint find_first (s pat : bytes) : option nat :=
  if decide (pat `prefix_of` s) then Some 0%nat
  else match s with
       | [] => None
       | _ :: t => S <$> find_first t pat
       end.

(** [s.find(pat, pos)]; [None] is [npos]. *)
Definition find (s pat : bytes) (pos : nat) : option nat :=
  if decide (pos <= length s)%nat then (fun i => (pos + i)%nat) <$> find_first (drop pos s) pat
  else None.

(** [s.replace(pos, len, str)] for [pos <= s.size()]. *)
Definition replace (s : bytes) (pos len : nat) (str : bytes) : bytes :=
  take pos s ++ str ++ drop (pos + len) s.

(** ** LLVM's view of a Mach-O file *)

Definition Error := string.

Inductive Expected (A : Type) : Type :=
| Success (a : A)
| Failure (E : Error).
Arguments Success {A} a.
Arguments Failure {A} E.

(** [MachO::segment_command_64]: 64-bit fields. *)
Record segment_command_64 := {
  vmaddr_64 : Z;
  vmsize_64 : Z;
  fileoff_64 : Z
}.

(** [MachO::segment_command]: 32-bit fields. *)
Record segment_command := {
  vmaddr : Z;
  vmsize : Z;
  fileoff : Z
}.

Inductive load_command :=
| LC_SEGMENT_64 (Seg : segment_command_64)
| LC_SEGMENT (Seg : segment_command)
| LC_other (cmd : Z).

(** A section as [SectionRef] shows it: its name (reading it may fail), the
    [offset] and [size] fields of its [section] / [section_64] record, and
    whether reading the contents fails. *)
Record SectionRef := {
  getName : Expected bytes;
  Sec_offset : Z;
  Sec_size : Z;
  getContents_error : option Error
}.

(** One architecture slice.  [data_size] is the size of the bytes the object
    was created over; they start at the slice offset of the file. *)
Record MachOObjectFile := {
  is64Bit : bool;
  getArchName : string;
  load_commands : list load_command;
  sections : list SectionRef;
  data_size : Z
}.

Record StringRef := {
  Data : Z;
  Size : Z
}.

(** [Section.getContents()]: LLVM returns [getData().substr(offset, size)],
    a view into the file image that starts [Sec_offset] bytes into the
    slice, clamped to the slice's data. *)
Definition getContents (Image : bytes) (MachOObj : MachOObjectFile) (SliceOffset : Z)
    (Section : SectionRef) : Expected StringRef :=
  match getContents_error Section with
  | Some E => Failure E
  | None =>
      let avail := Z.of_nat (length (take (Z.to_nat (data_size MachOObj))
                                          (drop (Z.to_nat SliceOffset) Image))) in
      let Start := Z.min (Sec_offset Section) avail in
      Success {| Data := SliceOffset + Start;
                 Size := Z.min (Sec_size Section) (avail - Start) |}
  end.

(** ** Address translation *)

(** [virtualAddressToFileOffset], lines 104-120.  The 64-bit branch adds
    [vmaddr] and [vmsize] as [uint64_t], the 32-bit branch as [uint32_t];
    the result is computed in [uint64_t]. *)
Fixpoint translate (LCs : list load_command) (VA : Z) : option Z :=
  match LCs with
  | [] => None
  | LC_SEGMENT_64 Seg :: rest =>
      if (vmaddr_64 Seg <=? VA) && (VA <? wrap64 (vmaddr_64 Seg + vmsize_64 Seg))
      then Some (wrap64 (wrap64 (VA - vmaddr_64 Seg) + fileoff_64 Seg))
      else translate rest VA
  | LC_SEGMENT Seg :: rest =>
      if (vmaddr Seg <=? VA) && (VA <? wrap32 (vmaddr Seg + vmsize Seg))
      then Some (wrap64 (wrap64 (VA - vmaddr Seg) + fileoff Seg))
      else translate rest VA
  | LC_other _ :: rest => translate rest VA
  end.

Definition virtualAddressToFileOffset (Obj : MachOObjectFile) (VA : Z) : option Z :=
  translate (load_commands Obj) VA.

(** ** Command line *)

(** [CommandLineArgs], lines 23-31. *)
Record CommandLineArgs := {
  binaryPath : string;
  excludedClasses : gset bytes;
  quietMode : bool;
  dryRun : bool;
  pattern : bytes;
  replacement : bytes
}.

(** What CLI11 hands to the callback of line 61 once its own checks
    ([required], [ExistingFile], [expected(2)]) have passed. *)
Record ParsedOptions := {
  opt_binary_to_patch : string;
  opt_quiet : bool;
  opt_dry_run : bool;
  opt_exclude : list bytes;
  replace_args : list bytes
}.

(** The validation callback, lines 61-75: [Failure] is the thrown
    [CLI::ValidationError].  With [expected(2)] CLI11 itself refuses a
    [--replace] that has a single argument. *)
Definition callback (o : ParsedOptions) : Expected CommandLineArgs :=
  let args := {| binaryPath := opt_binary_to_patch o;
                 excludedClasses := list_to_set (opt_exclude o);
                 quietMode := opt_quiet o;
                 dryRun := opt_dry_run o;
                 pattern := [];
                 replacement := [] |} in
  match replace_args o with
  | [] => Success args
  | [_] => Failure "--replace: 2 required"%string
  | p :: r :: _ =>
      if decide (p = []) then Failure "Error: replacement pattern cannot be empty."%string
      else if decide (length p <> length r)
      then Failure "Error: for binary safety, the replacement pattern and the replacement string must be the same length."%string
      else Success {| binaryPath := opt_binary_to_patch o;
                      excludedClasses := list_to_set (opt_exclude o);
                      quietMode := opt_quiet o;
                      dryRun := opt_dry_run o;
                      pattern := p;
                      replacement := r |}
  end.

(** [parseCommandLine], lines 36-87.  [cli] is the outcome of CLI11's own
    processing of [argv]; every [CLI::ParseError], the callback's included,
    is caught and turned into [std::nullopt].  The text [app.exit] prints is
    left out. *)
Definition parseCommandLine (cli : Expected ParsedOptions) : option CommandLineArgs :=
  match cli with
  | Failure _ => None
  | Success o =>
      match callback o with
      | Failure _ => None
      | Success args => Some args
      end
  end.

(** ** Console output *)

Inductive kind := CLASS | CATEGORY.

Inductive message :=
| SkippingExcludedClass (Name : bytes)
| Found (k : kind) (Name : bytes) (offset : Z)
| ReplacedWith (newName : bytes)
| PatchingArchitecture (arch : string) (SliceOffset : Z)
| ErrorOpeningBinary (E : Error)
| ErrorReadingFile
| FailedToGetObject (E : Error)
| FailedToPatchSlice (E : Error)
| FailedToPatchFile (E : Error)
| NotAValidMachO
| DryRunComplete
| ErrorOpeningForWriting
| SuccessfullyPatched (path : string).

(** The alphabet of [generateRandomString], line 92. *)
Definition charset : bytes :=
  lit "abcdefghijklmnopqrstuvwxyzABCDEFGHIJKLMNOPQRSTUVWXYZ0123456789"%string.

(** ** The replace loop *)

(** Lines 168-172 (and 245-249):
    [while ((pos = newName.find(pattern, pos)) != npos)
       { newName.replace(pos, pattern.length(), replacement);
         pos += replacement.length(); replaced = true; }].
    [None] when the fuel runs out. *)
Fixpoint replace_loop (fuel : nat) (pat rep newName : bytes) (pos : nat) (replaced : bool)
    : option (bytes * bool) :=
  match find newName pat pos with
  | None => Some (newName, replaced)
  | Some pos' =>
      match fuel with
      | O => None
      | S fuel' =>
          replace_loop fuel' pat rep (replace newName pos' (length pat) rep)
                       (pos' + length rep) true
      end
  end.

(** The Replace strategy applied to one name. *)
Definition replaceName (pat rep originalName : bytes) : option (bytes * bool) :=
  replace_loop (length originalName) pat rep originalName 0 false.

(** ** The patcher *)

Section Patcher.

(** The process-wide [std::mt19937] of line 94 with the
    [uniform_int_distribution<int>(0, 61)] drawn from it: one draw returns an
    index and the next generator state. *)
Context {G : Type} (distribution : G -> nat * G).

(** What a run threads through: the working buffer, the generator and the
    lines printed so far. *)
Record state := {
  WritableMB : bytes;
  generator : G;
  outs : list message
}.

Definition print (quiet : bool) (ms : list message) (st : state) : state :=
  {| WritableMB := WritableMB st;
     generator := generator st;
     outs := if quiet then outs st else outs st ++ ms |}.

(** [generateRandomString], lines 90-101.  The distribution only returns
    indices into [charset]. *)
Fixpoint generateRandomString (length : nat) (g : G) : bytes * G :=
  match length with
  | O => ([], g)
  | S n =>
      let '(k, g1) := distribution g in
      let '(random_string, g2) := generateRandomString n g1 in
      (default NUL (charset !! k) :: random_string, g2)
  end.

(** The block both patchers run on a name found at [RealOffset], lines
    161-193 and 238-271; the two copies differ in the tag they print. *)
Definition patchName (k : kind) (args : CommandLineArgs) (Name : bytes) (RealOffset : Z)
    (st : state) : option state :=
  let useReplaceMode := negb (bool_decide (pattern args = [])) in
  if useReplaceMode then
    '(newName, replaced) ← replaceName (pattern args) (replacement args) Name;
    if (replaced : bool) then
      let st1 := print (quietMode args) [Found k Name RealOffset; ReplacedWith newName] st in
      src ← c_str_read newName (length Name);
      W ← memcpy (WritableMB st1) RealOffset src;
      Some {| WritableMB := W; generator := generator st1; outs := outs st1 |}
    else Some st
  else
    let st1 := print (quietMode args) [Found k Name RealOffset] st in
    let '(RandomString, g) := generateRandomString (length Name) (generator st1) in
    W ← memcpy (WritableMB st1) RealOffset RandomString;
    Some (print (quietMode args) [ReplacedWith RandomString]
            {| WritableMB := W; generator := g; outs := outs st1 |}).

(** The scan of [patchClassNameSection], lines 146-196.  [Current] counts
    from [Contents.begin()]; names are read from the image the object was
    created over.  Every turn moves [Current] forward, so fuel equal to the
    size of the contents is never used up. *)
Fixpoint classNameLoop (fuel : nat) (Image : bytes) (Contents : StringRef)
    (SliceOffset SectionFileOffset : Z) (args : CommandLineArgs)
    (Current : Z) (st : state) : option state :=
  if Current <? Size Contents then
    match fuel with
    | O => None
    | S fuel' =>
        Name ← cstr_at Image (Data Contents + Current);
        if decide (Name = []) then
          classNameLoop fuel' Image Contents SliceOffset SectionFileOffset args
                        (Current + 1) st
        else if decide (Name ∈ excludedClasses args) then
          classNameLoop fuel' Image Contents SliceOffset SectionFileOffset args
                        (Current + Z.of_nat (length Name) + 1)
                        (print (quietMode args) [SkippingExcludedClass Name] st)
        else
          let RealFileOffset := wrap64 (wrap64 (SliceOffset + SectionFileOffset) + Current) in
          st' ← patchName CLASS args Name RealFileOffset st;
          classNameLoop fuel' Image Contents SliceOffset SectionFileOffset args
                        (Current + Z.of_nat (length Name) + 1) st'
    end
  else Some st.

(** [patchClassNameSection], lines 124-197. *)
Definition patchClassNameSection (Image : bytes) (Section : SectionRef)
    (MachOObj : MachOObjectFile) (SliceOffset : Z) (args : CommandLineArgs)
    (st : state) : option state :=
  let SectionFileOffset := Sec_offset Section in
  match getContents Image MachOObj SliceOffset Section with
  | Failure _ => Some st
  | Success Contents =>
      classNameLoop (Z.to_nat (Size Contents)) Image Contents SliceOffset SectionFileOffset
                    args 0 st
  end.

(** One slot of the category list, lines 218-271; [continue] leaves the
    state as it is. *)
Definition categorySlot (Image OriginalMB : bytes) (Contents : StringRef)
    (MachOObj : MachOObjectFile) (SliceOffset : Z) (args : CommandLineArgs)
    (i : Z) (st : state) : option state :=
  let PtrSize := if is64Bit MachOObj then 8 else 4 in
  category_va ← load PtrSize Image (Data Contents + i);
  match virtualAddressToFileOffset MachOObj category_va with
  | None => Some st
  | Some category_offset =>
      category_name_va ← load PtrSize OriginalMB (SliceOffset + category_offset);
      match virtualAddressToFileOffset MachOObj category_name_va with
      | None => Some st
      | Some name_offset =>
          let RealNameOffset := wrap64 (SliceOffset + name_offset) in
          CategoryName ← cstr_at OriginalMB RealNameOffset;
          if decide (CategoryName = []) then Some st
          else patchName CATEGORY args CategoryName RealNameOffset st
      end
  end.

(** The loop of line 217: [for (unsigned i = 0; i + PtrSize <= Contents.size();
    i += PtrSize)], with [i] a 32-bit counter.  The fuel runs out only where
    the counter wraps, on contents of 4 GiB, and the source loops forever. *)
Fixpoint categoryLoop (fuel : nat) (Image OriginalMB : bytes) (Contents : StringRef)
    (MachOObj : MachOObjectFile) (SliceOffset : Z) (args : CommandLineArgs)
    (i : Z) (st : state) : option state :=
  let PtrSize := if is64Bit MachOObj then 8 else 4 in
  if wrap32 (i + PtrSize) <=? Size Contents then
    match fuel with
    | O => None
    | S fuel' =>
        st' ← categorySlot Image OriginalMB Contents MachOObj SliceOffset args i st;
        categoryLoop fuel' Image OriginalMB Contents MachOObj SliceOffset args
                     (wrap32 (i + PtrSize)) st'
    end
  else Some st.

(** [patchCategoryListSection], lines 201-273. *)
Definition patchCategoryListSection (Image : bytes) (Section : SectionRef)
    (MachOObj : MachOObjectFile) (OriginalMB : bytes) (SliceOffset : Z)
    (args : CommandLineArgs) (st : state) : option state :=
  match getContents Image MachOObj SliceOffset Section with
  | Failure _ => Some st
  | Success Contents =>
      categoryLoop (Z.to_nat (Size Contents)) Image OriginalMB Contents MachOObj
                   SliceOffset args 0 st
  end.

(** The section loop of [patchMachOSlice], lines 287-300: the [Error] it
    returns, [None] for [Error::success()], and the state it leaves. *)
Fixpoint sectionLoop (Image : bytes) (Sections : list SectionRef)
    (MachOObj : MachOObjectFile) (OriginalMB : bytes) (SliceOffset : Z)
    (args : CommandLineArgs) (st : state) : option (option Error * state) :=
  match Sections with
  | [] => Some (None, st)
  | Section :: rest =>
      match getName Section with
      | Failure E => Some (Some E, st)
      | Success SectionName =>
          st' ← (if decide (SectionName = lit "__objc_classname") then
                   patchClassNameSection Image Section MachOObj SliceOffset args st
                 else if decide (SectionName = lit "__objc_catlist") then
                   patchCategoryListSection Image Section MachOObj OriginalMB SliceOffset
                                            args st
                 else Some st);
          sectionLoop Image rest MachOObj OriginalMB SliceOffset args st'
      end
  end.

(** [patchMachOSlice], lines 277-301. *)
Definition patchMachOSlice (Image : bytes) (MachOObj : MachOObjectFile)
    (OriginalMB : bytes) (SliceOffset : Z) (args : CommandLineArgs) (st : state)
    : option (option Error * state) :=
  sectionLoop Image (sections MachOObj) MachOObj OriginalMB SliceOffset args
    (print (quietMode args) [PatchingArchitecture (getArchName MachOObj) SliceOffset] st).

End Patcher.

(** ** The program *)

(** One member of a universal binary: [ObjForArch.getOffset()] and
    [ObjForArch.getAsObjectFile()]. *)
Record ObjectForArch := {
  getOffset : Z;
  getAsObjectFile : Expected MachOObjectFile
}.

(** What [createBinary] recognises the file as. *)
Inductive Binary :=
| Universal (objects : list ObjectForArch)
| Thin (MachOObj : MachOObjectFile)
| OtherBinary.

(** The calls [main] makes on the file at [binaryPath]. *)
Inductive file_op :=
| OpCreateBinary
| OpGetFile
| OpOpenForWriting
| OpWrite (data : bytes).

(** The result of a run: exit code, the file's bytes afterwards, the file
    operations performed in order, and the lines printed. *)
Record Run := {
  exit_code : Z;
  file_after : bytes;
  file_ops : list file_op;
  printed : list message
}.

Section Program.

Context {G : Type} (distribution : G -> nat * G).

(** The surroundings of a run: the file's bytes, how LLVM parses them,
    whether reading and opening for writing fail, and the seed
    [std::random_device] hands to the generator. *)
Record World := {
  file : bytes;
  createBinary : Expected Binary;
  getFile_error : option Error;
  open_error : option Error;
  seed : G
}.

(** The loop over the members of a universal binary, lines 334-345. *)
Fixpoint universalLoop (Image : bytes) (objects : list ObjectForArch)
    (OriginalMB : bytes) (args : CommandLineArgs) (st : state (G:=G)) : option state :=
  match objects with
  | [] => Some st
  | ObjForArch :: rest =>
      match getAsObjectFile ObjForArch with
      | Failure E =>
          universalLoop Image rest OriginalMB args (print false [FailedToGetObject E] st)
      | Success MachOObj =>
          '(E, st') ← patchMachOSlice distribution Image MachOObj OriginalMB
                        (getOffset ObjForArch) args st;
          match E with
          | Some E =>
              universalLoop Image rest OriginalMB args (print false [FailedToPatchSlice E] st')
          | None => universalLoop Image rest OriginalMB args st'
          end
      end
  end.

(** Lines 333-354: the state after all slices, or the exit code of an early
    [return] together with what was printed. *)
Definition patchBinary (Bin : Binary) (OriginalMB : bytes) (args : CommandLineArgs)
    (st : state) : option (state + Z * list message) :=
  match Bin with
  | Universal objects => inl <$> universalLoop OriginalMB objects OriginalMB args st
  | Thin MachOObj =>
      '(E, st') ← patchMachOSlice distribution OriginalMB MachOObj OriginalMB 0 args st;
      match E with
      | Some E => Some (inr (1, outs st' ++ [FailedToPatchFile E]))
      | None => Some (inl st')
      end
  | OtherBinary => Some (inr (1, outs st ++ [NotAValidMachO]))
  end.

(** [main], lines 305-376. *)
Definition main (cli : Expected ParsedOptions) (w : World) : option Run :=
  match parseCommandLine cli with
  | None =>
      Some {| exit_code := 1; file_after := file w; file_ops := []; printed := [] |}
  | Some args =>
      match createBinary w with
      | Failure E =>
          Some {| exit_code := 1; file_after := file w; file_ops := [OpCreateBinary];
                  printed := [ErrorOpeningBinary E] |}
      | Success Bin =>
          match getFile_error w with
          | Some _ =>
              Some {| exit_code := 1; file_after := file w;
                      file_ops := [OpCreateBinary; OpGetFile];
                      printed := [ErrorReadingFile] |}
          | None =>
              let OriginalMB := file w in
              let st0 := {| WritableMB := OriginalMB; generator := seed w; outs := [] |} in
              r ← patchBinary Bin OriginalMB args st0;
              match r with
              | inr (code, out) =>
                  Some {| exit_code := code; file_after := file w;
                          file_ops := [OpCreateBinary; OpGetFile]; printed := out |}
              | inl st =>
                  if dryRun args then
                    Some {| exit_code := 0; file_after := file w;
                            file_ops := [OpCreateBinary; OpGetFile];
                            printed := outs (print (quietMode args) [DryRunComplete] st) |}
                  else
                    match open_error w with
                    | Some _ =>
                        Some {| exit_code := 1; file_after := file w;
                                file_ops := [OpCreateBinary; OpGetFile; OpOpenForWriting];
                                printed := outs st ++ [ErrorOpeningForWriting] |}
                    | None =>
                        Some {| exit_code := 0; file_after := WritableMB st;
                                file_ops := [OpCreateBinary; OpGetFile; OpOpenForWriting;
                                             OpWrite (WritableMB st)];
                                printed := outs (print (quietMode args)
                                                   [SuccessfullyPatched (binaryPath args)] st) |}
                    end
              end
          end
      end
  end.

End Program.

(** ** Notions the properties are stated with *)

(** The invariant of a validated configuration: the replacement is as long
    as the pattern (both are empty in Randomize mode). *)
Definition valid_args (args : CommandLineArgs) : Prop :=
  length (pattern args) = length (replacement args).

(** The writes of a run as a list of [memcpy] calls, destination offset and
    bytes, applied in order to a working buffer. *)
Definition apply_writes (ws : list (Z * bytes)) (W : bytes) : bytes :=
  fold_left (fun W w => list_inserts (Z.to_nat w.1) w.2 W) ws W.

(** Offset [j] lies inside the string [Name] found at offset [p]. *)
Definition inside (p : Z) (Name : bytes) (j : nat) : Prop :=
  (Z.to_nat p <= j < Z.to_nat p + length Name)%nat.

(** Slot [i] of a category list resolves, through the two pointers read from
    [Image] and [OriginalMB], to the name [Name] found at offset [p] of
    [OriginalMB]. *)
Definition resolves_to (Image OriginalMB : bytes) (Contents : StringRef)
    (MachOObj : MachOObjectFile) (SliceOffset : Z) (i p : Z) (Name : bytes) : Prop :=
  let PtrSize := if is64Bit MachOObj then 8 else 4 in
  exists category_va category_offset category_name_va name_offset : Z,
    load PtrSize Image (Data Contents + i) = Some category_va /\
    virtualAddressToFileOffset MachOObj category_va = Some category_offset /\
    load PtrSize OriginalMB (SliceOffset + category_offset) = Some category_name_va /\
    virtualAddressToFileOffset MachOObj category_name_va = Some name_offset /\
    p = wrap64 (SliceOffset + name_offset) /\
    cstr_at OriginalMB p = Some Name.

(** The entries the scan of a class-name section visits: offset from the
    start of the contents and name, the empty ones left out. *)
Fixpoint classEntries (fuel : nat) (Image : bytes) (Contents : StringRef) (Current : Z)
    : list (Z * bytes) :=
  if Current <? Size Contents then
    match fuel with
    | O => []
    | S fuel' =>
        match cstr_at Image (Data Contents + Current) with
        | None => []
        | Some Name =>
            if decide (Name = []) then classEntries fuel' Image Contents (Current + 1)
            else (Current, Name)
                   :: classEntries fuel' Image Contents (Current + Z.of_nat (length Name) + 1)
        end
    end
  else [].

(** Offset [i] is a slot of the category list: one of the positions
    [0], [PtrSize], [2 * PtrSize], ... at which a whole pointer still lies
    inside the contents, as the loop of line 217 visits them. *)
Definition slot (Contents : StringRef) (MachOObj : MachOObjectFile) (i : Z) : Prop :=
  let PtrSize := if is64Bit MachOObj then 8 else 4 in
  0 <= i /\ i mod PtrSize = 0 /\ i + PtrSize <= Size Contents.

(** A write that overwrites, with as many bytes, the non-empty name some
    slot of the category list resolves to. *)
Definition name_write (Image OriginalMB : bytes) (Contents : StringRef)
    (MachOObj : MachOObjectFile) (SliceOffset : Z) (w : Z * bytes) : Prop :=
  exists (i : Z) (Name : bytes),
    slot Contents MachOObj i /\
    resolves_to Image OriginalMB Contents MachOObj SliceOffset i w.1 Name /\
    Name <> [] /\ length w.2 = length Name.

(** A write that overwrites, with as many bytes, an entry of the class-name
    section that is not excluded. *)
Definition class_write (entries : list (Z * bytes)) (Contents : StringRef)
    (args : CommandLineArgs) (w : Z * bytes) : Prop :=
  exists (c : Z) (Name : bytes),
    ((c, Name) ∈ entries) /\ (Name ∉ excludedClasses args) /\
    w.1 = Data Contents + c /\ length w.2 = length Name.

(** The pattern occurs somewhere in the string. *)
Definition occurs (pat s : bytes) : Prop :=
  exists pre post : bytes, s = pre ++ pat ++ post.

(** Replace mode in the words of the specification: read the string from
    left to right; where the pattern starts, put the replacement and pass
    over the pattern's bytes, so that occurrences never overlap; copy every
    other byte.  [skip] counts the bytes of the pattern still to pass. *)
Fixpoint scan_replace (pat rep : bytes) (skip : nat) (s : bytes) : bytes :=
  match s with
  | [] => []
  | c :: t =>
      match skip with
      | S k => scan_replace pat rep k t
      | O =>
          if decide (pat `prefix_of` s)
          then rep ++ scan_replace pat rep (length pat - 1) t
          else c :: scan_replace pat rep 0 t
      end
  end.

Definition replace_spec (pat rep s : bytes) : bytes := scan_replace pat rep 0 s.

(** The virtual address lies in the half-open range
    [[vmaddr, vmaddr + vmsize)] of a segment command, the sum taken in the
    integers. *)
Definition contains (lc : load_command) (VA : Z) : Prop :=
  match lc with
  | LC_SEGMENT_64 Seg => vmaddr_64 Seg <= VA < vmaddr_64 Seg + vmsize_64 Seg
  | LC_SEGMENT Seg => vmaddr Seg <= VA < vmaddr Seg + vmsize Seg
  | LC_other _ => False
  end.

(** [fileoff + (VA - vmaddr)] for a segment command. *)
Definition file_offset (lc : load_command) (VA : Z) : Z :=
  match lc with
  | LC_SEGMENT_64 Seg => fileoff_64 Seg + (VA - vmaddr_64 Seg)
  | LC_SEGMENT Seg => fileoff Seg + (VA - vmaddr Seg)
  | LC_other _ => 0
  end.

(** The fields of a segment command fit their width, and neither the end of
    its address range nor the end of its file range leaves the width the
    source computes them in. *)
Definition in_range (lc : load_command) : Prop :=
  match lc with
  | LC_SEGMENT_64 Seg =>
      0 <= vmaddr_64 Seg /\ 0 <= vmsize_64 Seg /\ 0 <= fileoff_64 Seg /\
      vmaddr_64 Seg + vmsize_64 Seg < 2 ^ 64 /\ fileoff_64 Seg + vmsize_64 Seg <= 2 ^ 64
  | LC_SEGMENT Seg =>
      0 <= vmaddr Seg /\ 0 <= vmsize Seg /\ 0 <= fileoff Seg < 2 ^ 32 /\
      vmaddr Seg + vmsize Seg < 2 ^ 32
  | LC_other _ => True
  end.

(** A write that overwrites a string of the original buffer with as many
    bytes. *)
Definition string_write (Orig : bytes) (w : Z * bytes) : Prop :=
  exists Name : bytes, cstr_at Orig w.1 = Some Name /\ length w.2 = length Name.

(** The offsets LLVM reports are unsigned. *)
Definition wf_object (MachOObj : MachOObjectFile) : Prop :=
  Forall (fun Section => 0 <= Sec_offset Section) (sections MachOObj).

Definition wf_binary (Bin : Binary) : Prop :=
  match Bin with
  | Universal objects =>
      Forall (fun ObjForArch =>
                0 <= getOffset ObjForArch /\
                forall MachOObj, getAsObjectFile ObjForArch = Success MachOObj ->
                                 wf_object MachOObj) objects
  | Thin MachOObj => wf_object MachOObj
  | OtherBinary => True
  end.

(** The slices [main] patches: the object of a thin binary at offset 0, and
    every member of a universal binary that gives an object, at its
    offset. *)
Definition slice_of (Bin : Binary) (SliceOffset : Z) (MachOObj : MachOObjectFile) : Prop :=
  match Bin with
  | Universal objects =>
      exists ObjForArch, (ObjForArch ∈ objects) /\
                         getOffset ObjForArch = SliceOffset /\
                         getAsObjectFile ObjForArch = Success MachOObj
  | Thin Obj => SliceOffset = 0 /\ MachOObj = Obj
  | OtherBinary => False
  end.

(** [Name], at offset [p] of the file, is an entry of a section named
    [__objc_classname] of some slice of the binary. *)
Definition class_name_at (Orig : bytes) (Bin : Binary) (p : Z) (Name : bytes) : Prop :=
  exists (SliceOffset : Z) (MachOObj : MachOObjectFile) (Section : SectionRef)
         (Contents : StringRef) (c : Z),
    slice_of Bin SliceOffset MachOObj /\
    (Section ∈ sections MachOObj) /\
    getName Section = Success (lit "__objc_classname") /\
    getContents Orig MachOObj SliceOffset Section = Success Contents /\
    ((c, Name) ∈ classEntries (Z.to_nat (Size Contents)) Orig Contents 0) /\
    p = Data Contents + c.

(** [Name], at offset [p] of the file, is the name a slot of a section named
    [__objc_catlist] of some slice of the binary resolves to. *)
Definition category_name_at (Orig : bytes) (Bin : Binary) (p : Z) (Name : bytes) : Prop :=
  exists (SliceOffset : Z) (MachOObj : MachOObjectFile) (Section : SectionRef)
         (Contents : StringRef) (i : Z),
    slice_of Bin SliceOffset MachOObj /\
    (Section ∈ sections MachOObj) /\
    getName Section = Success (lit "__objc_catlist") /\
    getContents Orig MachOObj SliceOffset Section = Success Contents /\
    slot Contents MachOObj i /\
    resolves_to Orig Orig Contents MachOObj SliceOffset i p Name.

(** A write of a whole run: as many bytes as the name it overwrites, which
    is a class-name entry that is not excluded, or the non-empty name a
    category slot resolves to. *)
Definition run_write (Orig : bytes) (Bin : Binary) (args : CommandLineArgs)
    (w : Z * bytes) : Prop :=
  exists Name : bytes,
    length w.2 = length Name /\
    ((class_name_at Orig Bin w.1 Name /\ Name ∉ excludedClasses args) \/
     (category_name_at Orig Bin w.1 Name /\ Name <> [])).

(** The configuration [--quiet] gives in place of [args]. *)
Definition quiet_args (args : CommandLineArgs) : CommandLineArgs :=
  {| binaryPath := binaryPath args; excludedClasses := excludedClasses args;
     quietMode := true; dryRun := dryRun args;
     pattern := pattern args; replacement := replacement args |}.

(** The options with [--dry-run] given or not. *)
Definition with_dry_run (o : ParsedOptions) (dry : bool) : ParsedOptions :=
  {| opt_binary_to_patch := opt_binary_to_patch o; opt_quiet := opt_quiet o;
     opt_dry_run := dry; opt_exclude := opt_exclude o; replace_args := replace_args o |}.

(** The configuration with another [dryRun]. *)
Definition args_dry_run (args : CommandLineArgs) (dry : bool) : CommandLineArgs :=
  {| binaryPath := binaryPath args; excludedClasses := excludedClasses args;
     quietMode := quietMode args; dryRun := dry;
     pattern := pattern args; replacement := replacement args |}.

Section Notions.

Context {G : Type}.

(** The same run state over another working buffer. *)
Definition with_buffer (st : state (G:=G)) (W : bytes) : state :=
  {| WritableMB := W; generator := generator st; outs := outs st |}.

(** Started from [st] over any working buffer of the same length, [f]
    performs the writes [ws] and ends with the generator and output of
    [st']: what it writes does not depend on the working buffer. *)
Definition performs (f : state -> option state) (st : state) (ws : list (Z * bytes))
    (st' : state) : Prop :=
  forall W : bytes, length W = length (WritableMB st) ->
    f (with_buffer st W) = Some (with_buffer st' (apply_writes ws W)).

(** The same run state with other lines printed. *)
Definition with_outs (st : state (G:=G)) (o : list message) : state :=
  {| WritableMB := WritableMB st; generator := generator st; outs := o |}.

End Notions.

(** ** Sample inputs *)

(** A small deterministic generator standing for the seeded engine. *)
Definition sample_distribution (g : nat) : nat * nat :=
  ((g mod 62)%nat, ((g * 5 + 3) mod 97)%nat).

(** [n] bytes of [z], least significant first. *)
Fixpoint le_bytes (n : nat) (z : Z) : bytes :=
  match n with
  | O => []
  | S n' => default NUL (Byte.of_N (Z.to_N (z mod 256))) :: le_bytes n' (z / 256)
  end.

(** A 64-bit slice of 31 bytes: a category list with one slot at offset 0,
    the category record at offset 8, and at offset 16 a class-name section
    holding ["Keep"] and ["FooBarFoo"]; the category's name pointer leads to
    ["Keep"].  One segment maps addresses from [0x1000] to the file. *)
Definition sample_image : bytes :=
  le_bytes 8 0x1008 ++ le_bytes 8 0x1010 ++ lit "Keep" ++ [NUL] ++ lit "FooBarFoo" ++ [NUL].

Definition sample_classname : SectionRef :=
  {| getName := Success (lit "__objc_classname"); Sec_offset := 16; Sec_size := 15;
     getContents_error := None |}.

Definition sample_catlist : SectionRef :=
  {| getName := Success (lit "__objc_catlist"); Sec_offset := 0; Sec_size := 8;
     getContents_error := None |}.

Definition sample_unnamed : SectionRef :=
  {| getName := Failure "truncated section name"%string; Sec_offset := 0; Sec_size := 0;
     getContents_error := None |}.

Definition sample_unreadable : SectionRef :=
  {| getName := Success (lit "__objc_classname"); Sec_offset := 16; Sec_size := 15;
     getContents_error := Some "unreadable contents"%string |}.

Definition sample_segment : load_command :=
  LC_SEGMENT_64 {| vmaddr_64 := 0x1000; vmsize_64 := 0x100; fileoff_64 := 0 |}.

Definition sample_object (Sections : list SectionRef) : MachOObjectFile :=
  {| is64Bit := true; getArchName := "arm64"%string; load_commands := [sample_segment];
     sections := Sections; data_size := 31 |}.



Definition sample_args (excluded : list bytes) (quiet dry : bool) (pat rep : bytes)
    : CommandLineArgs :=
  {| binaryPath := "a.out"%string; excludedClasses := list_to_set excluded; quietMode := quiet;
     dryRun := dry; pattern := pat; replacement := rep |}.

Definition sample_options (excluded : list bytes) (dry : bool) (replace_opt : list bytes)
    : ParsedOptions :=
  {| opt_binary_to_patch := "a.out"%string; opt_quiet := false; opt_dry_run := dry;
     opt_exclude := excluded; replace_args := replace_opt |}.

Definition sample_state (W : bytes) : state (G:=nat) :=
  {| WritableMB := W; generator := 5%nat; outs := [] |}.

Definition sample_world (Bin : Expected Binary) (open_err : option Error) : World (G:=nat) :=
  {| file := sample_image; createBinary := Bin; getFile_error := None;
     open_error := open_err; seed := 5%nat |}.

(** Randomize and Replace configurations over the samples. *)
Definition randomize_args : CommandLineArgs := sample_args [lit "Keep"] false false [] [].

Definition replace_Foo_args : CommandLineArgs :=
  sample_args [lit "Keep"] false false (lit "Foo") (lit "Bar").

Definition sample_thin : MachOObjectFile := sample_object [sample_classname; sample_catlist].

(** The contents of the two sample sections. *)
Definition classname_contents : StringRef := {| Data := 16; Size := 15 |}.

(** The states the sample runs end in. *)
Definition after_replace : state (G:=nat) :=
  Eval vm_compute in
    default (sample_state [])
      (patchName sample_distribution CLASS replace_Foo_args (lit "FooBarFoo") 21
         (sample_state sample_image)).

Definition after_classname : state (G:=nat) :=
  Eval vm_compute in
    default (sample_state [])
      (patchClassNameSection sample_distribution sample_image sample_classname sample_thin 0
         randomize_args (sample_state sample_image)).


Definition after_dry_run : Run :=
  Eval vm_compute in
    default {| exit_code := 2; file_after := []; file_ops := []; printed := [] |}
      (main sample_distribution (Success (sample_options [lit "Keep"] true []))
         (sample_world (Success (Thin sample_thin)) None)).

(** A thin slice and a universal member whose first section has no readable
    name. *)
Definition sample_broken : MachOObjectFile :=
  sample_object [sample_unnamed; sample_classname].

Definition sample_member : ObjectForArch :=
  {| getOffset := 0; getAsObjectFile := Success sample_broken |}.

Definition after_broken : state (G:=nat) :=
  Eval vm_compute in
    default (sample_state [])
      (snd <$> patchMachOSlice sample_distribution sample_image sample_broken sample_image 0
                 randomize_args (sample_state sample_image)).

(** A class-name section laid over the six NUL bytes at offset 2 of the
    sample, a configuration whose pattern the sample does not hold, and a
    slice without segment commands. *)
Definition sample_padding : SectionRef :=
  {| getName := Success (lit "__objc_classname"); Sec_offset := 2; Sec_size := 6;
     getContents_error := None |}.

Definition padding_contents : StringRef := {| Data := 2; Size := 6 |}.

Definition replace_Zzz_args : CommandLineArgs :=
  sample_args [lit "Keep"] false false (lit "Zzz") (lit "Yyy").

Definition sample_unmapped : MachOObjectFile :=
  {| is64Bit := true; getArchName := "arm64"%string; load_commands := [LC_other 0x32];
     sections := [sample_catlist]; data_size := 31 |}.

Definition sample_text : SectionRef :=
  {| getName := Success (lit "__text"); Sec_offset := 16; Sec_size := 15;
     getContents_error := None |}.

(** The sample with the category's name pointer leading to ["FooBarFoo"]
    at offset 21, and a run over it that excludes ["Keep"]. *)
Definition sample_foo_image : bytes :=
  le_bytes 8 0x1008 ++ le_bytes 8 0x1015 ++ lit "Keep" ++ [NUL] ++ lit "FooBarFoo" ++ [NUL].

Definition sample_foo_world : World (G:=nat) :=
  {| file := sample_foo_image; createBinary := Success (Thin sample_thin);
     getFile_error := None; open_error := None; seed := 5%nat |}.

Definition after_foo_run : Run :=
  Eval vm_compute in
    default {| exit_code := 2; file_after := []; file_ops := []; printed := [] |}
      (main sample_distribution (Success (sample_options [lit "Keep"] false []))
         sample_foo_world).

(** Two class-name sections side by side over the bytes of ["FooBarFoo"]:
    the first, of three bytes, holds no terminator; the second starts with
    the entry ["BarFoo"]. *)
Definition sample_unterminated : SectionRef :=
  {| getName := Success (lit "__objc_classname"); Sec_offset := 21; Sec_size := 3;
     getContents_error := None |}.

Definition sample_tail : SectionRef :=
  {| getName := Success (lit "__objc_classname"); Sec_offset := 24; Sec_size := 7;
     getContents_error := None |}.

(** * Properties *)

(** ** Buffers *)

Lemma memcpy_Some (Buf : bytes) (p : Z) (src Buf' : bytes) :
  memcpy Buf p src = Some Buf' ->
  0 <= p /\ p + Z.of_nat (length src) <= Z.of_nat (length Buf) /\
  Buf' = list_inserts (Z.to_nat p) src Buf.
Proof.
  unfold memcpy. case_decide; [|discriminate].
  intros [= <-]. tauto.
Qed.

Lemma c_str_prefix (l : bytes) : c_str l `prefix_of` l.
Proof.
  induction l as [|b t IH]; simpl; [done|].
  case_decide; [apply prefix_nil | by apply prefix_cons].
Qed.

Lemma c_str_length (l : bytes) : (length (c_str l) <= length l)%nat.
Proof. apply prefix_length, c_str_prefix. Qed.

Lemma c_str_no_NUL (l : bytes) : NUL ∉ c_str l.
Proof.
  induction l as [|b t IH]; simpl; [apply not_elem_of_nil|].
  case_decide; [apply not_elem_of_nil|].
  rewrite not_elem_of_cons. split; [congruence | done].
Qed.

Lemma c_str_lookup (l : bytes) (k : nat) :
  (k < length (c_str l))%nat -> l !! k = c_str l !! k.
Proof.
  intros Hk. destruct (c_str_prefix l) as [r Hr].
  rewrite Hr at 1. by rewrite lookup_app_l.
Qed.

(** The byte behind a C string is its terminator, unless the buffer ends. *)
Lemma c_str_terminator (l : bytes) :
  l !! length (c_str l) = Some NUL \/ l !! length (c_str l) = None.
Proof.
  induction l as [|b t IH]; simpl; [by right|].
  case_decide; simpl; [left; congruence | done].
Qed.

Lemma cstr_at_Some (Buf : bytes) (p : Z) (Name : bytes) :
  cstr_at Buf p = Some Name ->
  0 <= p /\ p + Z.of_nat (length Name) <= Z.of_nat (length Buf) /\
  Name = c_str (drop (Z.to_nat p) Buf).
Proof.
  unfold cstr_at. case_decide as Hp; [|discriminate].
  intros [= <-]. split; [lia|]. split; [|done].
  pose proof (c_str_length (drop (Z.to_nat p) Buf)) as Hl.
  rewrite length_drop in Hl. lia.
Qed.

(** A byte inside a C string of the buffer is not NUL. *)
Lemma cstr_at_not_NUL (Buf : bytes) (p : Z) (Name : bytes) (i : nat) :
  cstr_at Buf p = Some Name ->
  (Z.to_nat p <= i < Z.to_nat p + length Name)%nat ->
  Buf !! i <> Some NUL.
Proof.
  intros H Hi. apply cstr_at_Some in H as (Hp & Hlen & ->).
  replace i with (Z.to_nat p + (i - Z.to_nat p))%nat by lia.
  rewrite <- lookup_drop, c_str_lookup by lia.
  intros Hn. apply list_elem_of_lookup_2 in Hn. by apply c_str_no_NUL in Hn.
Qed.

(** ** The two strategies keep the length *)

Section Strategy.

Context {G : Type} (distribution : G -> nat * G).

Lemma generateRandomString_length (n : nat) (g : G) :
  length (generateRandomString distribution n g).1 = n.
Proof.
  revert g. induction n as [|n IH]; intros g; simpl; [done|].
  destruct (distribution g) as [k g1]. specialize (IH g1).
  destruct (generateRandomString distribution n g1) as [s g2]. simpl in *. lia.
Qed.

End Strategy.

Lemma find_first_Some (s pat : bytes) (i : nat) :
  find_first s pat = Some i ->
  exists pre post, s = pre ++ pat ++ post /\ length pre = i.
Proof.
  revert i. induction s as [|c t IH]; intros i; simpl.
  - case_decide as Hp; [|discriminate]. intros [= <-].
    destruct Hp as [k Hk]. exists [], k. split; [exact Hk | done].
  - case_decide as Hp.
    + intros [= <-]. destruct Hp as [k Hk]. exists [], k. split; [exact Hk | done].
    + destruct (find_first t pat) as [j|] eqn:Hj; [|discriminate].
      intros [= <-]. destruct (IH j eq_refl) as (pre & post & -> & <-).
      by exists (c :: pre), post.
Qed.

Lemma find_Some (s pat : bytes) (pos i : nat) :
  find s pat pos = Some i ->
  (pos <= i)%nat /\ exists pre post, s = pre ++ pat ++ post /\ length pre = i.
Proof.
  unfold find. case_decide as Hpos; [|discriminate].
  destruct (find_first (drop pos s) pat) as [j|] eqn:Hj; [|discriminate].
  intros [= <-]. split; [lia|].
  apply find_first_Some in Hj as (pre & post & Hs & <-).
  exists (take pos s ++ pre), post. split.
  - rewrite <- (take_drop pos s) at 1. rewrite Hs. by rewrite <- app_assoc.
  - rewrite length_app, length_take. lia.
Qed.

Lemma replace_at (pre pat post rep : bytes) :
  replace (pre ++ pat ++ post) (length pre) (length pat) rep = pre ++ rep ++ post.
Proof.
  unfold replace. rewrite take_app_length.
  rewrite (app_assoc pre pat post), <- length_app, drop_app_length. done.
Qed.

(** With a replacement as long as the pattern the loop keeps the length of
    the name. *)
Lemma replace_loop_length (fuel : nat) (pat rep newName : bytes) (pos : nat) (b : bool)
    (r : bytes) (b' : bool) :
  length pat = length rep ->
  replace_loop fuel pat rep newName pos b = Some (r, b') ->
  length r = length newName.
Proof.
  intros Hlen. revert newName pos b.
  induction fuel as [|fuel IH]; intros newName pos b; simpl.
  - destruct (find newName pat pos); [discriminate|]. by intros [= <- <-].
  - destruct (find newName pat pos) as [i|] eqn:Hf; [|by intros [= <- <-]].
    intros Hr. apply IH in Hr. rewrite Hr.
    apply find_Some in Hf as (_ & pre & post & -> & <-).
    rewrite replace_at. rewrite !length_app. lia.
Qed.

Lemma list_inserts_same (l : bytes) (i n : nat) :
  list_inserts i (take n (drop i l)) l = l.
Proof.
  apply list_eq. intros j.
  destruct (decide (j < i)%nat) as [Hlt|Hge].
  { by rewrite list_lookup_inserts_lt. }
  destruct (decide (i + length (take n (drop i l)) <= j)%nat) as [Hout|Hin].
  { by rewrite list_lookup_inserts_ge. }
  assert (j < length l)%nat as Hj.
  { rewrite length_take, length_drop in Hin. lia. }
  rewrite list_lookup_inserts by lia.
  rewrite length_take in Hin.
  rewrite lookup_take_lt by lia. rewrite lookup_drop. f_equal. lia.
Qed.

(** ** C1: a patch keeps the length and stays before the terminator *)

Section LengthInvariance.

Context {G : Type} (distribution : G -> nat * G).

(** C1. A name patched in either mode is overwritten by a string of exactly
    its own byte length, written at the name's own offset: the working
    buffer keeps its length, and every byte before the name and every byte
    from the original terminator on is unchanged.  The terminator is the
    byte of the original right behind the name, where the buffer does not
    end there. *)
Theorem patchName_keeps_length (k : kind) (args : CommandLineArgs) (Orig : bytes) (p : Z)
    (Name : bytes) (st st' : state) :
  valid_args args ->
  cstr_at Orig p = Some Name ->
  length (WritableMB st) = length Orig ->
  patchName distribution k args Name p st = Some st' ->
  exists new : bytes,
    length new = length Name /\
    WritableMB st' = list_inserts (Z.to_nat p) new (WritableMB st) /\
    length (WritableMB st') = length (WritableMB st) /\
    (forall i : nat, (i < Z.to_nat p \/ Z.to_nat p + length Name <= i)%nat ->
                     WritableMB st' !! i = WritableMB st !! i) /\
    (Orig !! (Z.to_nat p + length Name)%nat = Some NUL \/
     Orig !! (Z.to_nat p + length Name)%nat = None).
Proof.
  intros Hvalid Hname Hlen Hpatch.
  assert (exists new : bytes, length new = length Name /\
            WritableMB st' = list_inserts (Z.to_nat p) new (WritableMB st)) as (new & Hn & HW).
  { unfold patchName in Hpatch.
    destruct (negb (bool_decide (pattern args = []))).
    - destruct (replaceName (pattern args) (replacement args) Name) as [[newName replaced]|]
        eqn:Hrep; [|discriminate]. simpl in Hpatch.
      apply replace_loop_length in Hrep; [|exact Hvalid].
      destruct replaced.
      + unfold c_str_read in Hpatch. case_decide; [|discriminate]. simpl in Hpatch.
        destruct (memcpy _ _ _) as [W|] eqn:Hcpy; [|discriminate].
        simpl in Hpatch. injection Hpatch as <-. simpl.
        apply memcpy_Some in Hcpy as (_ & _ & ->).
        exists (take (length Name) (newName ++ [NUL])). split; [|by destruct (quietMode args)].
        rewrite length_take, length_app. simpl. lia.
      + injection Hpatch as <-.
        exists (take (length Name) (drop (Z.to_nat p) (WritableMB st))). split.
        * apply cstr_at_Some in Hname as (? & ? & _).
          rewrite length_take, length_drop. lia.
        * by rewrite list_inserts_same.
    - pose proof (generateRandomString_length distribution (length Name)
                    (generator (print (quietMode args) [Found k Name p] st))) as Hr.
      destruct (generateRandomString _ _ _) as [RandomString g]. simpl in Hr.
      destruct (memcpy _ _ _) as [W|] eqn:Hcpy; [|discriminate].
      simpl in Hpatch. injection Hpatch as <-.
      apply memcpy_Some in Hcpy as (_ & _ & ->).
      exists RandomString. split; [done|]. by destruct (quietMode args). }
  exists new. split; [done|]. split; [done|]. rewrite HW. split; [|split].
  - apply length_inserts.
  - intros i [Hi|Hi].
    + by apply list_lookup_inserts_lt.
    + apply list_lookup_inserts_ge. lia.
  - apply cstr_at_Some in Hname as (_ & _ & ->).
    rewrite <- !lookup_drop. apply c_str_terminator.
Qed.

End LengthInvariance.

(** ** Runs as lists of writes *)

Lemma apply_writes_length (ws : list (Z * bytes)) (W : bytes) :
  length (apply_writes ws W) = length W.
Proof.
  revert W. induction ws as [|w ws IH]; intros W; simpl; [done|].
  unfold apply_writes in IH. rewrite IH. apply length_inserts.
Qed.

Lemma apply_writes_app (ws1 ws2 : list (Z * bytes)) (W : bytes) :
  apply_writes (ws1 ++ ws2) W = apply_writes ws2 (apply_writes ws1 W).
Proof. apply fold_left_app. Qed.

(** A byte outside every written range keeps its value. *)
Lemma apply_writes_frame (ws : list (Z * bytes)) (W : bytes) (j : nat) :
  Forall (fun w => ~ (Z.to_nat w.1 <= j < Z.to_nat w.1 + length w.2)%nat) ws ->
  apply_writes ws W !! j = W !! j.
Proof.
  revert W. induction ws as [|w ws IH]; intros W Hall; simpl; [done|].
  apply Forall_cons in Hall as [Hw Hall].
  unfold apply_writes in IH. rewrite IH by done.
  destruct (decide (j < Z.to_nat w.1)%nat).
  - by apply list_lookup_inserts_lt.
  - apply list_lookup_inserts_ge. lia.
Qed.

Section Runs.

Context {G : Type} (distribution : G -> nat * G).

Implicit Types st : state (G:=G).

Lemma with_buffer_same st : with_buffer st (WritableMB st) = st.
Proof. by destruct st. Qed.

Lemma performs_result (f : state -> option state) st (ws : list (Z * bytes)) st' st'' :
  performs f st ws st' -> f st = Some st'' ->
  st'' = with_buffer st' (apply_writes ws (WritableMB st)).
Proof.
  intros Hp Hf. specialize (Hp (WritableMB st) eq_refl).
  rewrite with_buffer_same in Hp. congruence.
Qed.

(** Two runs in sequence perform the writes of the first, then those of the
    second. *)
Lemma performs_bind (f g : state -> option state) st st1 st2 (ws1 ws2 : list (Z * bytes)) :
  length (WritableMB st1) = length (WritableMB st) ->
  performs f st ws1 st1 ->
  performs g st1 ws2 st2 ->
  performs (fun s => f s ≫= g) st (ws1 ++ ws2) st2.
Proof.
  intros Hlen Hf Hg W HW. rewrite (Hf W HW). simpl.
  rewrite apply_writes_app. apply (Hg (apply_writes ws1 W)).
  rewrite apply_writes_length. congruence.
Qed.

(** What one patch does to any working buffer of the right length: nothing,
    or one write of as many bytes as the name has, at the name's offset. *)
Lemma patchName_performs (k : kind) (args : CommandLineArgs) (Name : bytes) (p : Z)
    st st' :
  patchName distribution k args Name p st = Some st' ->
  exists ws, performs (patchName distribution k args Name p) st ws st' /\
             (ws = [] \/ exists new, ws = [(p, new)] /\ length new = length Name).
Proof.
  unfold patchName, performs. intros Hpatch.
  destruct (negb (bool_decide (pattern args = []))).
  - destruct (replaceName (pattern args) (replacement args) Name) as [[newName replaced]|]
      eqn:Hrep; [|discriminate]. simpl in Hpatch. destruct replaced.
    + unfold c_str_read in *. case_decide as Hn; [|discriminate]. simpl in Hpatch.
      destruct (memcpy _ _ _) as [W1|] eqn:Hcpy; [|discriminate].
      simpl in Hpatch. injection Hpatch as <-.
      apply memcpy_Some in Hcpy as (Hp0 & Hp1 & _).
      exists [(p, take (length Name) (newName ++ [NUL]))]. split.
      * intros W HW. simpl in *. unfold memcpy. rewrite decide_True by done. simpl.
        rewrite decide_True; [done|]. split; [done|]. rewrite HW. lia.
      * right. eexists. split; [done|]. rewrite length_take, length_app. simpl. lia.
    + injection Hpatch as <-. exists []. split; [|by left]. by intros W HW.
  - destruct (generateRandomString _ _ _) as [RandomString g] eqn:Hgen.
    pose proof (generateRandomString_length distribution (length Name)
                  (generator (print (quietMode args) [Found k Name p] st))) as Hr.
    rewrite Hgen in Hr. simpl in Hr.
    destruct (memcpy _ _ _) as [W1|] eqn:Hcpy; [|discriminate].
    simpl in Hpatch. injection Hpatch as <-.
    apply memcpy_Some in Hcpy as (Hp0 & Hp1 & _).
    exists [(p, RandomString)]. split; [|right; eauto].
    intros W HW. simpl in *.
    replace (generator (print (quietMode args) [Found k Name p] (with_buffer st W)))
      with (generator (print (quietMode args) [Found k Name p] st))
      by (by destruct (quietMode args)).
    rewrite Hgen. unfold memcpy. rewrite decide_True.
    + simpl. by destruct (quietMode args).
    + simpl. split; [done|]. rewrite HW. lia.
Qed.

Lemma performs_length (f : state -> option state) st (ws : list (Z * bytes)) st' :
  performs f st ws st' -> f st = Some st' ->
  length (WritableMB st') = length (WritableMB st).
Proof.
  intros Hp Hf. rewrite (performs_result _ _ _ _ _ Hp Hf). simpl.
  apply apply_writes_length.
Qed.

(** One slot of the category list writes nothing, or the name it resolves
    to. *)
Lemma categorySlot_performs (Image OriginalMB : bytes) (Contents : StringRef)
    (MachOObj : MachOObjectFile) (SliceOffset : Z) (args : CommandLineArgs) (i : Z)
    st st' :
  slot Contents MachOObj i ->
  categorySlot distribution Image OriginalMB Contents MachOObj SliceOffset args i st
    = Some st' ->
  exists ws,
    performs (categorySlot distribution Image OriginalMB Contents MachOObj SliceOffset
                args i) st ws st' /\
    Forall (name_write Image OriginalMB Contents MachOObj SliceOffset) ws.
Proof.
  unfold categorySlot, performs. intros Hi Hslot.
  destruct (load _ Image _) as [category_va|] eqn:H1; [|discriminate]. simpl in *.
  destruct (virtualAddressToFileOffset MachOObj category_va) as [category_offset|] eqn:H2;
    [|injection Hslot as <-; by exists []].
  destruct (load _ OriginalMB _) as [category_name_va|] eqn:H3; [|discriminate].
  simpl in *.
  destruct (virtualAddressToFileOffset MachOObj category_name_va) as [name_offset|] eqn:H4;
    [|injection Hslot as <-; by exists []].
  destruct (cstr_at OriginalMB _) as [CategoryName|] eqn:H5; [|discriminate].
  simpl in *. case_decide as Hne; [injection Hslot as <-; by exists []|].
  apply patchName_performs in Hslot as (ws & Hperf & Hws). exists ws. split; [exact Hperf|].
  destruct Hws as [->|(new & -> & Hlen)]; [done|].
  apply Forall_singleton. exists i, CategoryName. split; [exact Hi|]. split; [|done].
  unfold resolves_to. simpl. eauto 10.
Qed.

(** One step of the 32-bit counter [i] of line 217, from a multiple of the
    pointer size: [i += PtrSize] moves one pointer on, and wraps to [0] only
    from [2^32 - PtrSize]. *)
Lemma wrap32_step (PtrSize i : Z) :
  PtrSize = 8 \/ PtrSize = 4 ->
  0 <= i < 2 ^ 32 -> i mod PtrSize = 0 ->
  (wrap32 (i + PtrSize) = i + PtrSize /\ i + PtrSize <= 2 ^ 32 - PtrSize) \/
  (wrap32 (i + PtrSize) = 0 /\ i = 2 ^ 32 - PtrSize).
Proof.
  intros HP Hi Hmod. unfold wrap32.
  assert (i = PtrSize * (i / PtrSize)) as Hk.
  { pose proof (Z.div_mod i PtrSize). lia. }
  destruct (decide (i + PtrSize < 2 ^ 32)) as [Hlt|Hge].
  - left. rewrite Z.mod_small by lia. destruct HP; subst PtrSize; lia.
  - right. assert (i + PtrSize = 2 ^ 32) as Heq by (destruct HP; subst PtrSize; lia).
    rewrite Heq, Z.mod_same by lia. lia.
Qed.

(** On contents of [2^32 - PtrSize] bytes or more the condition of line 217
    holds at every value of the counter: the loop never ends, whatever the
    fuel. *)
Lemma categoryLoop_wraps (fuel : nat) (Image OriginalMB : bytes) (Contents : StringRef)
    (MachOObj : MachOObjectFile) (SliceOffset : Z) (args : CommandLineArgs) (i : Z) st :
  2 ^ 32 - (if is64Bit MachOObj then 8 else 4) <= Size Contents ->
  0 <= i < 2 ^ 32 -> i mod (if is64Bit MachOObj then 8 else 4) = 0 ->
  categoryLoop distribution fuel Image OriginalMB Contents MachOObj SliceOffset args i st
  = None.
Proof.
  intros HSize. revert i st. induction fuel as [|fuel IH]; intros i st Hi Hmod; simpl;
    (assert (PtrSizes : (if is64Bit MachOObj then 8 else 4) = 8 \/
                        (if is64Bit MachOObj then 8 else 4) = 4)
       by (destruct (is64Bit MachOObj); auto));
    destruct (wrap32_step _ i PtrSizes Hi Hmod) as [[Hw Hle]|[Hw Hle]];
    rewrite Hw; rewrite (proj2 (Z.leb_le _ _)) by lia; try done.
  - destruct (categorySlot _ _ _ _ _ _ _ _ _) as [st1|]; [|done]. simpl.
    apply IH; [destruct PtrSizes; lia|].
    rewrite <- Z.add_mod_idemp_l, Hmod by (destruct PtrSizes; lia).
    destruct (is64Bit MachOObj); reflexivity.
  - destruct (categorySlot _ _ _ _ _ _ _ _ _) as [st1|]; [|done]. simpl.
    apply IH; [lia|]. by destruct (is64Bit MachOObj).
Qed.

(** The category loop, started at a multiple of the pointer size that the
    contents reach, visits slots only: every write overwrites the name one
    of them resolves to. *)
Lemma categoryLoop_performs (fuel : nat) (Image OriginalMB : bytes) (Contents : StringRef)
    (MachOObj : MachOObjectFile) (SliceOffset : Z) (args : CommandLineArgs) (i : Z)
    st st' :
  0 <= i < 2 ^ 32 -> i mod (if is64Bit MachOObj then 8 else 4) = 0 ->
  i <= Z.max 0 (Size Contents) ->
  categoryLoop distribution fuel Image OriginalMB Contents MachOObj SliceOffset args i st
    = Some st' ->
  exists ws,
    performs (categoryLoop distribution fuel Image OriginalMB Contents MachOObj SliceOffset
                args i) st ws st' /\
    Forall (name_write Image OriginalMB Contents MachOObj SliceOffset) ws.
Proof.
  revert i st. induction fuel as [|fuel IH]; intros i st Hi Hmod Hreach; simpl.
  - destruct (_ <=? _); [discriminate|]. intros [= <-].
    exists []. split; [|done]. by intros W _.
  - destruct (_ <=? _) eqn:Hcond.
    + apply Z.leb_le in Hcond.
      assert (PtrSizes : (if is64Bit MachOObj then 8 else 4) = 8 \/
                         (if is64Bit MachOObj then 8 else 4) = 4)
        by (destruct (is64Bit MachOObj); auto).
      destruct (wrap32_step _ i PtrSizes Hi Hmod) as [[Hw Hle]|[Hw Hle]].
      * rewrite Hw in *.
        destruct (categorySlot _ _ _ _ _ _ _ _ st) as [st1|] eqn:Hslot; [|discriminate].
        simpl. intros Hloop.
        assert (slot Contents MachOObj i) as Hs by (unfold slot; lia).
        destruct (categorySlot_performs _ _ _ _ _ _ _ _ _ Hs Hslot) as (ws1 & Hp1 & Hq1).
        assert ((i + (if is64Bit MachOObj then 8 else 4))
                  mod (if is64Bit MachOObj then 8 else 4) = 0) as Hmod'.
        { rewrite <- Z.add_mod_idemp_l, Hmod by (destruct PtrSizes; lia).
          destruct (is64Bit MachOObj); reflexivity. }
        assert (0 <= i + (if is64Bit MachOObj then 8 else 4) < 2 ^ 32) as Hi'
          by (destruct PtrSizes; lia).
        assert (i + (if is64Bit MachOObj then 8 else 4) <= Z.max 0 (Size Contents))
          as Hreach' by lia.
        destruct (IH _ _ Hi' Hmod' Hreach' Hloop) as (ws2 & Hp2 & Hq2).
        exists (ws1 ++ ws2). split; [|by apply Forall_app].
        eapply performs_bind; [|exact Hp1|exact Hp2].
        by eapply performs_length.
      * destruct (categorySlot _ _ _ _ _ _ _ _ st) as [st1|]; [|discriminate]. simpl.
        rewrite Hw, categoryLoop_wraps; [discriminate|lia|lia|].
        by destruct (is64Bit MachOObj).
    + intros [= <-]. exists []. split; [|done]. by intros W _.
Qed.

(** The whole category pass: one list of writes for every working buffer,
    each over the name a slot of the section resolves to. *)
Lemma patchCategoryListSection_performs (Image : bytes) (Section : SectionRef)
    (MachOObj : MachOObjectFile) (OriginalMB : bytes) (SliceOffset : Z)
    (args : CommandLineArgs) st st' :
  patchCategoryListSection distribution Image Section MachOObj OriginalMB SliceOffset
    args st = Some st' ->
  exists ws : list (Z * bytes),
    performs (patchCategoryListSection distribution Image Section MachOObj OriginalMB
                SliceOffset args) st ws st' /\
    Forall (fun w => exists Contents,
              getContents Image MachOObj SliceOffset Section = Success Contents /\
              name_write Image OriginalMB Contents MachOObj SliceOffset w) ws.
Proof.
  unfold patchCategoryListSection, performs. intros Hrun.
  destruct (getContents Image MachOObj SliceOffset Section) as [Contents|E] eqn:HC.
  - apply categoryLoop_performs in Hrun as (ws & Hp & Hq);
      [|lia|by destruct (is64Bit MachOObj)|lia].
    exists ws. split; [exact Hp|].
    eapply Forall_impl; [exact Hq|]. intros w Hw. by exists Contents.
  - injection Hrun as <-. by exists [].
Qed.

(** The scan of a class-name section writes only entries that are not
    excluded, each at its own offset. *)
Lemma classNameLoop_performs (fuel : nat) (Image : bytes) (Contents : StringRef)
    (SliceOffset SectionFileOffset : Z) (args : CommandLineArgs) (Current : Z) st st' :
  (forall c, 0 <= c < Size Contents ->
     wrap64 (wrap64 (SliceOffset + SectionFileOffset) + c) = Data Contents + c) ->
  0 <= Current ->
  classNameLoop distribution fuel Image Contents SliceOffset SectionFileOffset args
    Current st = Some st' ->
  exists ws,
    performs (classNameLoop distribution fuel Image Contents SliceOffset SectionFileOffset
                args Current) st ws st' /\
    Forall (class_write (classEntries fuel Image Contents Current) Contents args) ws.
Proof.
  intros Hoff. revert Current st.
  induction fuel as [|fuel IH]; intros Current st HCur; simpl.
  - destruct (_ <? _); [discriminate|]. intros [= <-]. by exists [].
  - destruct (Current <? Size Contents) eqn:Hcond; [|intros [= <-]; by exists []].
    apply Z.ltb_lt in Hcond.
    destruct (cstr_at Image _) as [Name|] eqn:HName; [|discriminate]. simpl.
    case_decide as Hempty.
    { intros Hloop. apply IH in Hloop as (ws & Hp & Hq); [|lia]. by exists ws. }
    case_decide as Hex.
    { intros Hloop. apply IH in Hloop as (ws & Hp & Hq); [|lia]. exists ws. split.
      - intros W HW. apply (Hp W). by destruct (quietMode args).
      - eapply Forall_impl; [exact Hq|]. intros w (c & N & Hin & ?).
        exists c, N. split; [|done]. by apply list_elem_of_further. }
    rewrite Hoff by lia.
    destruct (patchName _ _ _ _ _ st) as [st1|] eqn:Hpatch; [|discriminate]. simpl.
    intros Hloop.
    destruct (patchName_performs _ _ _ _ _ _ Hpatch) as (ws1 & Hp1 & Hq1).
    apply IH in Hloop as (ws2 & Hp2 & Hq2); [|lia].
    exists (ws1 ++ ws2). split.
    + eapply performs_bind; [|exact Hp1|exact Hp2]. by eapply performs_length.
    + apply Forall_app. split.
      * destruct Hq1 as [->|(new & -> & Hlen)]; [done|]. apply Forall_singleton.
        exists Current, Name. split; [apply list_elem_of_here|done].
      * eapply Forall_impl; [exact Hq2|]. intros w (c & N & Hin & ?).
        exists c, N. split; [|done]. by apply list_elem_of_further.
Qed.

End Runs.

(** ** The entries of a class-name section *)

Lemma classEntries_elem (fuel : nat) (Image : bytes) (Contents : StringRef)
    (Current c : Z) (Name : bytes) :
  (c, Name) ∈ classEntries fuel Image Contents Current ->
  Current <= c < Size Contents /\
  cstr_at Image (Data Contents + c) = Some Name /\ Name <> [].
Proof.
  revert Current. induction fuel as [|fuel IH]; intros Current; simpl.
  - destruct (_ <? _); by intros ?%elem_of_nil.
  - destruct (Current <? Size Contents) eqn:Hcond; [|by intros ?%elem_of_nil].
    apply Z.ltb_lt in Hcond.
    destruct (cstr_at Image (Data Contents + Current)) as [N|] eqn:HN;
      [|by intros ?%elem_of_nil].
    case_decide as Hempty.
    + intros Hin. apply IH in Hin. split; [lia | tauto].
    + rewrite elem_of_cons. intros [[= -> ->]|Hin].
      * split; [lia | done].
      * apply IH in Hin. split; [lia | tauto].
Qed.

(** Two entries of one scan are the same entry, or one ends, terminator
    included, before the other starts. *)
Lemma classEntries_separated (fuel : nat) (Image : bytes) (Contents : StringRef)
    (Current c1 c2 : Z) (N1 N2 : bytes) :
  (c1, N1) ∈ classEntries fuel Image Contents Current ->
  (c2, N2) ∈ classEntries fuel Image Contents Current ->
  (c1, N1) = (c2, N2) \/
  c1 + Z.of_nat (length N1) < c2 \/ c2 + Z.of_nat (length N2) < c1.
Proof.
  revert Current. induction fuel as [|fuel IH]; intros Current; simpl.
  - destruct (_ <? _); by intros ?%elem_of_nil.
  - destruct (Current <? Size Contents) eqn:Hcond; [|by intros ?%elem_of_nil].
    destruct (cstr_at Image (Data Contents + Current)) as [N|] eqn:HN;
      [|by intros ?%elem_of_nil].
    case_decide as Hempty; [apply IH|].
    rewrite !elem_of_cons. intros [[= -> ->]|H1] [[= -> ->]|H2].
    + by left.
    + apply classEntries_elem in H2. right. left. lia.
    + apply classEntries_elem in H1. right. right. lia.
    + by eapply IH.
Qed.

Lemma classEntries_S (fuel : nat) (Image : bytes) (Contents : StringRef) (Current : Z) :
  classEntries (S fuel) Image Contents Current
  = if Current <? Size Contents then
      match cstr_at Image (Data Contents + Current) with
      | None => []
      | Some Name =>
          if decide (Name = []) then classEntries fuel Image Contents (Current + 1)
          else (Current, Name)
                 :: classEntries fuel Image Contents (Current + Z.of_nat (length Name) + 1)
      end
    else [].
Proof. done. Qed.

(** The scan lists all entries: fuel beyond the size of the contents adds
    none. *)
Lemma classEntries_fuel (fuel : nat) (Image : bytes) (Contents : StringRef) (Current : Z) :
  0 <= Current ->
  (Z.to_nat (Size Contents - Current) <= fuel)%nat ->
  classEntries (S fuel) Image Contents Current = classEntries fuel Image Contents Current.
Proof.
  revert Current. induction fuel as [|fuel IH]; intros Current HCur Hfuel.
  - simpl. destruct (Current <? Size Contents) eqn:Hcond; [|done].
    apply Z.ltb_lt in Hcond. lia.
  - rewrite (classEntries_S (S fuel)), (classEntries_S fuel _ _ Current).
    destruct (Current <? Size Contents) eqn:Hcond; [|done].
    apply Z.ltb_lt in Hcond.
    destruct (cstr_at Image (Data Contents + Current)) as [Name|]; [|done].
    case_decide; [apply IH; lia|]. f_equal. apply IH; lia.
Qed.

(** Inside the contents of a section the offset [patchClassNameSection]
    writes to is the offset the name was read from. *)
Lemma getContents_offsets (Image : bytes) (MachOObj : MachOObjectFile) (SliceOffset : Z)
    (Section : SectionRef) (Contents : StringRef) :
  0 <= SliceOffset -> 0 <= Sec_offset Section ->
  Z.of_nat (length Image) < 2 ^ 64 ->
  getContents Image MachOObj SliceOffset Section = Success Contents ->
  forall c, 0 <= c < Size Contents ->
    wrap64 (wrap64 (SliceOffset + Sec_offset Section) + c) = Data Contents + c /\
    0 <= Data Contents /\ Data Contents + Size Contents <= Z.of_nat (length Image).
Proof.
  intros Hs Ho Hlen. unfold getContents.
  destruct (getContents_error Section); [discriminate|].
  intros [= <-] c. simpl.
  set (avail := Z.of_nat (length (take (Z.to_nat (data_size MachOObj))
                                       (drop (Z.to_nat SliceOffset) Image)))).
  assert (avail <= Z.of_nat (length Image) - SliceOffset \/ avail = 0) as Hav.
  { unfold avail. rewrite length_take, length_drop. lia. }
  intros Hc. unfold wrap64.
  rewrite (Z.mod_small (SliceOffset + _)) by lia.
  rewrite Z.mod_small by lia. lia.
Qed.

(** ** C5: excluded class names *)

Section Exclusion.

Context {G : Type} (distribution : G -> nat * G).

Implicit Types st : state (G:=G).

Lemma patchName_outs (k : kind) (args : CommandLineArgs) (Name : bytes) (p : Z) st st' :
  patchName distribution k args Name p st = Some st' ->
  outs st `prefix_of` outs st'.
Proof.
  unfold patchName. destruct (negb _).
  - destruct (replaceName _ _ _) as [[newName [|]]|]; simpl; try discriminate.
    + destruct (c_str_read _ _); [|discriminate]. simpl.
      destruct (memcpy _ _ _); [|discriminate]. simpl. intros [= <-]. simpl.
      destruct (quietMode args); [done | by apply prefix_app_r].
    + by intros [= <-].
  - destruct (generateRandomString _ _ _) as [RandomString g].
    destruct (memcpy _ _ _); [|discriminate]. simpl. intros [= <-]. simpl.
    destruct (quietMode args); [done|]. simpl. by do 2 apply prefix_app_r.
Qed.

Lemma classNameLoop_outs (fuel : nat) (Image : bytes) (Contents : StringRef)
    (SliceOffset SectionFileOffset : Z) (args : CommandLineArgs) (Current : Z) st st' :
  classNameLoop distribution fuel Image Contents SliceOffset SectionFileOffset args
    Current st = Some st' ->
  outs st `prefix_of` outs st'.
Proof.
  revert Current st. induction fuel as [|fuel IH]; intros Current st; simpl.
  - destruct (_ <? _); [discriminate|]. by intros [= <-].
  - destruct (_ <? _); [|by intros [= <-]].
    destruct (cstr_at Image _) as [Name|]; [|discriminate]. simpl.
    case_decide; [apply IH|]. case_decide.
    + intros Hl%IH. etrans; [|exact Hl]. simpl.
      destruct (quietMode args); [done | by apply prefix_app_r].
    + destruct (patchName _ _ _ _ _ st) as [st1|] eqn:Hpatch; [|discriminate]. simpl.
      intros Hl%IH. etrans; [|exact Hl]. by eapply patchName_outs.
Qed.

(** When not quiet, the scan prints a line for every excluded entry. *)
Lemma classNameLoop_logs_excluded (fuel : nat) (Image : bytes) (Contents : StringRef)
    (SliceOffset SectionFileOffset : Z) (args : CommandLineArgs) (Current : Z) st st'
    (c : Z) (Name : bytes) :
  classNameLoop distribution fuel Image Contents SliceOffset SectionFileOffset args
    Current st = Some st' ->
  (c, Name) ∈ classEntries fuel Image Contents Current ->
  Name ∈ excludedClasses args ->
  quietMode args = false ->
  SkippingExcludedClass Name ∈ outs st'.
Proof.
  intros Hloop Hin Hex Hq. revert Current st Hloop Hin.
  induction fuel as [|fuel IH]; intros Current st; simpl.
  - destruct (_ <? _); by intros _ ?%elem_of_nil.
  - destruct (_ <? _); [|by intros _ ?%elem_of_nil].
    destruct (cstr_at Image _) as [N|]; [|discriminate]. simpl.
    case_decide; [apply IH|]. case_decide as HexN.
    + intros Hloop. rewrite elem_of_cons. intros [[= -> ->]|Hin]; [|by eapply IH].
      apply classNameLoop_outs in Hloop. simpl in Hloop. rewrite Hq in Hloop.
      eapply elem_of_prefix; [|exact Hloop]. set_solver.
    + destruct (patchName _ _ _ _ _ st) as [st1|]; [|discriminate]. simpl.
      intros Hloop. rewrite elem_of_cons. intros [[= -> ->]|Hin]; [done|by eapply IH].
Qed.

(** What the class-name pass does with an excluded entry: for every entry
    of the section whose exact text is in the exclusion set, the pass leaves
    the entry's bytes and its terminator as they are in the working buffer,
    in Randomize and in Replace mode alike, and prints the exclusion unless
    quiet. *)
Lemma patchClassNameSection_skips_excluded (Image : bytes) (Section : SectionRef)
    (MachOObj : MachOObjectFile) (SliceOffset : Z) (args : CommandLineArgs)
    (Contents : StringRef) st st' (c : Z) (Name : bytes) :
  0 <= SliceOffset -> 0 <= Sec_offset Section ->
  Z.of_nat (length Image) < 2 ^ 64 ->
  getContents Image MachOObj SliceOffset Section = Success Contents ->
  patchClassNameSection distribution Image Section MachOObj SliceOffset args st = Some st' ->
  (c, Name) ∈ classEntries (Z.to_nat (Size Contents)) Image Contents 0 ->
  Name ∈ excludedClasses args ->
  (forall j : nat,
     (Z.to_nat (Data Contents + c) <= j <= Z.to_nat (Data Contents + c) + length Name)%nat ->
     WritableMB st' !! j = WritableMB st !! j) /\
  (quietMode args = false -> SkippingExcludedClass Name ∈ outs st').
Proof.
  intros Hs Ho Hlen HC. unfold patchClassNameSection. rewrite HC.
  intros Hloop Hin Hex. split; [|intros Hq; by eapply classNameLoop_logs_excluded].
  pose proof (getContents_offsets _ _ _ _ _ Hs Ho Hlen HC) as Hoff.
  destruct (classNameLoop_performs distribution _ _ _ _ _ _ _ _ _
              (fun c Hc => proj1 (Hoff c Hc)) (Z.le_refl 0) Hloop) as (ws & Hp & Hq).
  intros j Hj. rewrite (performs_result _ _ _ _ _ Hp Hloop). simpl.
  apply apply_writes_frame. eapply Forall_impl; [exact Hq|].
  intros [p new] (c' & N' & Hin' & Hex' & Hp' & Hlen'). simpl in *.
  pose proof (classEntries_elem _ _ _ _ _ _ Hin) as (Hc & _).
  pose proof (classEntries_elem _ _ _ _ _ _ Hin') as (Hc' & _).
  destruct (Hoff c ltac:(lia)) as (_ & HD & _).
  destruct (classEntries_separated _ _ _ _ _ _ _ _ Hin Hin') as [[= -> ->]|Hsep];
    [done|]. lia.
Qed.

End Exclusion.

(** ** C2 and C9: the category list *)

Section CategoryList.

Context {G : Type} (distribution : G -> nat * G).

Implicit Types st : state (G:=G).



(** The strategy itself does not look at the exclusion set either. *)
Lemma patchName_exclusions (k : kind) (args : CommandLineArgs) (excluded : gset bytes)
    (Name : bytes) (p : Z) st :
  patchName distribution k
    {| binaryPath := binaryPath args; excludedClasses := excluded;
       quietMode := quietMode args; dryRun := dryRun args;
       pattern := pattern args; replacement := replacement args |} Name p st
  = patchName distribution k args Name p st.
Proof. done. Qed.

(** The whole category pass gives the same result under any two exclusion
    sets. *)
Lemma patchCategoryListSection_exclusions (Image : bytes) (Section : SectionRef)
    (MachOObj : MachOObjectFile) (OriginalMB : bytes) (SliceOffset : Z)
    (args : CommandLineArgs) (excluded : gset bytes) st :
  patchCategoryListSection distribution Image Section MachOObj OriginalMB SliceOffset
    {| binaryPath := binaryPath args; excludedClasses := excluded;
       quietMode := quietMode args; dryRun := dryRun args;
       pattern := pattern args; replacement := replacement args |} st
  = patchCategoryListSection distribution Image Section MachOObj OriginalMB SliceOffset
      args st.
Proof.
  unfold patchCategoryListSection. destruct (getContents _ _ _ _) as [Contents|]; [|done].
  generalize 0. revert st.
  induction (Z.to_nat (Size Contents)) as [|fuel IH]; intros st i; simpl; [done|].
  destruct (_ <=? _); [|done].
  replace (categorySlot distribution Image OriginalMB Contents MachOObj SliceOffset
             {| binaryPath := binaryPath args; excludedClasses := excluded;
                quietMode := quietMode args; dryRun := dryRun args;
                pattern := pattern args; replacement := replacement args |} i st)
    with (categorySlot distribution Image OriginalMB Contents MachOObj SliceOffset args i st)
    by done.
  destruct (categorySlot _ _ _ _ _ _ _ _ _); simpl; [apply IH | done].
Qed.

End CategoryList.

(** ** C3: Replace mode *)

Lemma scan_replace_skip (pat rep : bytes) (k : nat) (s : bytes) :
  scan_replace pat rep k s = scan_replace pat rep 0 (drop k s).
Proof.
  revert k. induction s as [|c t IH]; intros k; [by destruct k|].
  destruct k as [|k]; [done|]. simpl. apply IH.
Qed.

(** Without an occurrence the string is copied. *)
Lemma replace_spec_none (pat rep s : bytes) :
  find_first s pat = None -> replace_spec pat rep s = s.
Proof.
  unfold replace_spec. induction s as [|c t IH]; simpl; [done|].
  case_decide; [discriminate|].
  destruct (find_first t pat); [discriminate|]. intros _. by rewrite IH.
Qed.

(** With a first occurrence at [i], the bytes before it are copied, the
    replacement follows, and the scan goes on behind the occurrence. *)
Lemma replace_spec_first (pat rep s : bytes) (i : nat) :
  pat <> [] ->
  find_first s pat = Some i ->
  replace_spec pat rep s
  = take i s ++ rep ++ replace_spec pat rep (drop (i + length pat) s).
Proof.
  intros Hpat. unfold replace_spec. revert i.
  induction s as [|c t IH]; intros i; simpl.
  - case_decide as Hp; [|discriminate]. by apply prefix_nil_inv in Hp.
  - case_decide as Hp.
    + intros [= <-]. simpl. rewrite scan_replace_skip.
      destruct pat as [|a pat']; [done|]. simpl. by rewrite Nat.sub_0_r.
    + destruct (find_first t pat) as [j|] eqn:Hj; [|discriminate].
      intros [= <-]. simpl. by rewrite (IH j).
Qed.

Lemma find_first_split (s pat : bytes) (i : nat) :
  find_first s pat = Some i ->
  s = take i s ++ pat ++ drop (i + length pat) s /\ (i + length pat <= length s)%nat.
Proof.
  intros (pre & post & -> & <-)%find_first_Some.
  rewrite take_app_length, (app_assoc pre pat post), <- length_app, drop_app_length.
  rewrite <- app_assoc. split; [done|]. rewrite !length_app. lia.
Qed.

Lemma find_app (done rest pat : bytes) :
  find (done ++ rest) pat (length done)
  = (fun i => (length done + i)%nat) <$> find_first rest pat.
Proof.
  unfold find. rewrite decide_True by (rewrite length_app; lia).
  by rewrite drop_app_length.
Qed.

Lemma find_first_here (s pat : bytes) :
  pat `prefix_of` s -> find_first s pat = Some 0%nat.
Proof. intros Hp. destruct s; simpl; by rewrite decide_True. Qed.

Lemma occurs_find_first (pat s : bytes) :
  occurs pat s <-> is_Some (find_first s pat).
Proof.
  split.
  - intros (pre & post & ->). induction pre as [|c pre IH].
    + simpl. rewrite find_first_here; [eauto | by apply prefix_app_r].
    + simpl. case_decide; [eauto|]. destruct IH as [j ->]. simpl. eauto.
  - intros [i (pre & post & -> & _)%find_first_Some]. by exists pre, post.
Qed.

(** The loop of the source computes the scan of the specification: with
    [done] already behind the cursor and [rest] still to scan, it ends with
    [done] followed by the scan of [rest]. *)
Lemma replace_loop_spec (fuel : nat) (pat rep done rest : bytes) (b : bool) :
  pat <> [] ->
  (length rest <= fuel)%nat ->
  replace_loop fuel pat rep (done ++ rest) (length done) b
  = Some (done ++ replace_spec pat rep rest,
          b || bool_decide (is_Some (find_first rest pat))).
Proof.
  intros Hpat. revert done rest b.
  induction fuel as [|fuel IH]; intros done rest b Hfuel.
  - destruct rest; [|simpl in Hfuel; lia]. simpl. rewrite find_app. simpl.
    rewrite decide_False; [simpl; by rewrite orb_false_r|].
    by intros ?%prefix_nil_inv.
  - simpl. rewrite find_app.
    destruct (find_first rest pat) as [i|] eqn:Hf; simpl.
    + destruct (find_first_split _ _ _ Hf) as (Hsplit & Hi).
      rewrite (replace_spec_first _ _ _ _ Hpat Hf).
      rewrite Hsplit at 1. rewrite (app_assoc done).
      replace (length done + i)%nat with (length (done ++ take i rest))
        by (rewrite length_app, length_take; lia).
      rewrite replace_at.
      replace (length (done ++ take i rest) + length rep)%nat
        with (length ((done ++ take i rest) ++ rep)) by (by rewrite !length_app).
      rewrite (app_assoc _ rep), IH.
      * rewrite orb_true_r. by rewrite <- !app_assoc.
      * rewrite length_drop. destruct pat; [done|]. simpl in *. lia.
    + by rewrite (replace_spec_none _ _ _ Hf), orb_false_r.
Qed.

Lemma replaceName_spec (pat rep s : bytes) :
  pat <> [] ->
  replaceName pat rep s
  = Some (replace_spec pat rep s, bool_decide (is_Some (find_first s pat))).
Proof.
  intros Hpat. unfold replaceName.
  exact (replace_loop_spec (length s) pat rep [] s false Hpat (Nat.le_refl _)).
Qed.


Section ReplaceMode.

Context {G : Type} (distribution : G -> nat * G).


End ReplaceMode.

(** Occurrences do not overlap, and what was put is not scanned again. *)
Lemma replace_non_overlapping :
  replaceName (lit "aa") (lit "ba") (lit "aaaaa") = Some (lit "babaa", true) /\
  replaceName (lit "ab") (lit "ba") (lit "aab") = Some (lit "aba", true).
Proof. split; reflexivity. Qed.

(** The example of the specification. *)
Lemma replace_FooBarFoo :
  replaceName (lit "Foo") (lit "Bar") (lit "FooBarFoo") = Some (lit "BarBarBar", true) /\
  replace_spec (lit "Foo") (lit "Bar") (lit "FooBarFoo") = lit "BarBarBar".
Proof. split; reflexivity. Qed.

(** ** C4: address translation *)

Lemma translate_app_skip (pre rest : list load_command) (VA : Z) :
  Forall in_range pre ->
  Forall (fun lc => ~ contains lc VA) pre ->
  translate (pre ++ rest) VA = translate rest VA.
Proof.
  induction pre as [|lc pre IH]; [done|].
  intros [Hr Hrs]%Forall_cons [Hn Hns]%Forall_cons. simpl.
  destruct lc as [Seg|Seg|cmd]; simpl in *; [| |by apply IH].
  - unfold wrap64. rewrite (Z.mod_small (_ + _)) by lia.
    destruct (_ <=? _) eqn:H1, (_ <? _) eqn:H2; simpl; try by apply IH. lia.
  - unfold wrap32. rewrite (Z.mod_small (_ + _)) by lia.
    destruct (_ <=? _) eqn:H1, (_ <? _) eqn:H2; simpl; try by apply IH. lia.
Qed.

(** X2. On segment commands whose ranges do not leave their width,
    translation answers with the first segment, in the order of the load
    commands, whose range contains the address, whatever follows it. *)
Lemma translate_first (pre post : list load_command) (lc : load_command) (VA : Z) :
  Forall in_range (pre ++ [lc]) ->
  Forall (fun lc => ~ contains lc VA) pre ->
  contains lc VA ->
  translate (pre ++ lc :: post) VA = Some (file_offset lc VA).
Proof.
  intros [Hpre Hlc]%Forall_app Hn Hc. rewrite Forall_singleton in Hlc.
  rewrite translate_app_skip by done.
  destruct lc as [Seg|Seg|cmd]; [| |done]; unfold translate, contains, in_range,
    file_offset in *.
  - unfold wrap64. rewrite (Z.mod_small (vmaddr_64 Seg + vmsize_64 Seg)) by lia.
    rewrite (proj2 (Z.leb_le _ _)), (proj2 (Z.ltb_lt _ _)) by lia. simpl.
    rewrite (Z.mod_small (VA - _)) by lia. rewrite Z.mod_small by lia. f_equal. lia.
  - unfold wrap32, wrap64. rewrite (Z.mod_small (vmaddr Seg + vmsize Seg)) by lia.
    rewrite (proj2 (Z.leb_le _ _)), (proj2 (Z.ltb_lt _ _)) by lia. simpl.
    rewrite (Z.mod_small (VA - _)) by lia. rewrite Z.mod_small by lia. f_equal. lia.
Qed.

(** An address no segment contains is unresolved. *)
Lemma translate_none (LCs : list load_command) (VA : Z) :
  Forall in_range LCs ->
  Forall (fun lc => ~ contains lc VA) LCs ->
  translate LCs VA = None.
Proof.
  intros Hr Hn. rewrite <- (app_nil_r LCs). by rewrite translate_app_skip.
Qed.

(** The example of the specification, in both segment layouts. *)
Lemma translate_example :
  let Seg64 := LC_SEGMENT_64 {| vmaddr_64 := 0x1000; vmsize_64 := 0x200; fileoff_64 := 0x400 |} in
  let Seg32 := LC_SEGMENT {| vmaddr := 0x1000; vmsize := 0x200; fileoff := 0x400 |} in
  translate [Seg64] 0x1050 = Some 0x450 /\ translate [Seg64] 0x1300 = None /\
  translate [Seg32] 0x1050 = Some 0x450 /\ translate [Seg32] 0x1300 = None.
Proof. repeat split; reflexivity. Qed.

(** C4, where the source departs from it.  A 32-bit segment that ends at the
    top of the address space, [vmaddr = 0xFFFFF000] and [vmsize = 0x1000]:
    the address [0xFFFFF800] lies in its range, and the specification
    translates it to [fileoff + 0x800], but the source adds [vmaddr] and
    [vmsize] as [uint32_t], gets [0], and reports the address as
    unresolved.  The 64-bit branch does the same at the top of its range. *)
Theorem virtualAddressToFileOffset_wraps :
  let Seg := LC_SEGMENT {| vmaddr := 0xFFFFF000; vmsize := 0x1000; fileoff := 0x400 |} in
  let Obj := {| is64Bit := false; getArchName := "armv7"%string; load_commands := [Seg];
                sections := []; data_size := 0x2000 |} in
  contains Seg 0xFFFFF800 /\
  file_offset Seg 0xFFFFF800 = 0xC00 /\
  virtualAddressToFileOffset Obj 0xFFFFF800 = None /\
  translate [LC_SEGMENT_64 {| vmaddr_64 := 0xFFFFFFFFFFFFF000; vmsize_64 := 0x1000;
                              fileoff_64 := 0x400 |}] 0xFFFFFFFFFFFFF800 = None.
Proof. simpl. repeat split; (lia || reflexivity). Qed.

(** ** C6, C7, C8, C10: errors and persistence *)

(** What the callback lets through is a valid configuration. *)
Lemma parseCommandLine_valid (cli : Expected ParsedOptions) (args : CommandLineArgs) :
  parseCommandLine cli = Some args -> valid_args args.
Proof.
  unfold parseCommandLine, callback, valid_args.
  destruct cli as [o|]; [|discriminate].
  destruct (replace_args o) as [|p [|r rest]]; try discriminate.
  - by intros [= <-].
  - repeat case_decide; try discriminate. intros [= <-]. simpl. lia.
Qed.

(** An operation that is none of the listed ones. *)
Ltac absent :=
  intros; repeat (apply not_elem_of_cons; split; [discriminate|]); apply not_elem_of_nil.

Section Errors.

Context {G : Type} (distribution : G -> nat * G).

Implicit Types st : state (G:=G).

(** C6. A [--replace] whose pattern is empty, or whose replacement has
    another length than the pattern, is refused by the callback: [main]
    returns 1 having performed no operation on the file, whatever the file
    holds, and before any slice is looked at. *)
Theorem main_rejects_bad_replace (o : ParsedOptions) (p r : bytes) (rest : list bytes)
    (w : World (G:=G)) :
  replace_args o = p :: r :: rest ->
  p = [] \/ length p <> length r ->
  parseCommandLine (Success o) = None /\
  main distribution (Success o) w
  = Some {| exit_code := 1; file_after := file w; file_ops := []; printed := [] |}.
Proof.
  intros Hargs Hbad.
  assert (parseCommandLine (Success o) = None) as Hnone.
  { unfold parseCommandLine, callback. rewrite Hargs.
    destruct Hbad as [->|Hlen]; [done|].
    case_decide; [done|]. by rewrite decide_True. }
  split; [done|]. unfold main. by rewrite Hnone.
Qed.

(** C7, as the source has it.  A section whose name cannot be read ends the
    slice: [patchMachOSlice] returns the error at once and the remaining
    sections are not examined.  A section whose contents cannot be read is
    passed over without a message, and the remaining sections are processed
    from the unchanged state. *)
Theorem sectionLoop_errors (Image : bytes) (Section : SectionRef) (rest : list SectionRef)
    (MachOObj : MachOObjectFile) (OriginalMB : bytes) (SliceOffset : Z)
    (args : CommandLineArgs) st :
  (forall E, getName Section = Failure E ->
     sectionLoop distribution Image (Section :: rest) MachOObj OriginalMB SliceOffset args st
     = Some (Some E, st)) /\
  (forall SectionName E, getName Section = Success SectionName ->
     getContents_error Section = Some E ->
     sectionLoop distribution Image (Section :: rest) MachOObj OriginalMB SliceOffset args st
     = sectionLoop distribution Image rest MachOObj OriginalMB SliceOffset args st).
Proof.
  split.
  - intros E HE. simpl. by rewrite HE.
  - intros SectionName E HN HE. simpl. rewrite HN.
    unfold patchClassNameSection, patchCategoryListSection, getContents. rewrite HE.
    by repeat case_decide.
Qed.

(** C8, as the source has it.  In a dry run the file keeps its bytes and is
    neither opened for writing nor written, and the exit code is 0 whenever
    the binary was loaded and patched without an early return.  In every run
    the file is written at most once, as the last operation, with the
    working buffer left by the processing of all slices; otherwise it keeps
    its bytes. *)
Theorem main_persistence (cli : Expected ParsedOptions) (w : World (G:=G)) (r : Run) :
  main distribution cli w = Some r ->
  (forall args, parseCommandLine cli = Some args -> dryRun args = true ->
     file_after r = file w /\
     (OpOpenForWriting ∉ file_ops r) /\
     (forall data, OpWrite data ∉ file_ops r) /\
     (forall Bin st,
        createBinary w = Success Bin -> getFile_error w = None ->
        patchBinary distribution Bin (file w) args
          {| WritableMB := file w; generator := seed w; outs := [] |} = Some (inl st) ->
        exit_code r = 0)) /\
  ((file_after r = file w /\ forall data, OpWrite data ∉ file_ops r) \/
   (exists args Bin st,
      parseCommandLine cli = Some args /\ createBinary w = Success Bin /\
      patchBinary distribution Bin (file w) args
        {| WritableMB := file w; generator := seed w; outs := [] |} = Some (inl st) /\
      file_ops r = [OpCreateBinary; OpGetFile; OpOpenForWriting; OpWrite (WritableMB st)] /\
      file_after r = WritableMB st)).
Proof.
  unfold main. intros Hmain.
  destruct (parseCommandLine cli) as [args|] eqn:Hargs.
  2: { injection Hmain as <-. split; [done|]. left. simpl. split; [done|absent]. }
  destruct (createBinary w) as [Bin|E] eqn:HBin.
  2: { injection Hmain as <-. simpl. split; [|left; split; [done|absent]].
       intros ? [= <-] _. repeat split; try absent. discriminate. }
  destruct (getFile_error w) eqn:Hget.
  { injection Hmain as <-. simpl. split; [|left; split; [done|absent]].
    intros ? [= <-] _. repeat split; try absent. discriminate. }
  destruct (patchBinary _ _ _ _ _) as [[st|[code out]]|] eqn:Hpatch; [| |discriminate];
    simpl in Hmain.
  2: { injection Hmain as <-. simpl. split; [|left; split; [done|absent]].
       intros ? [= <-] _. repeat split; try absent. intros. congruence. }
  destruct (dryRun args) eqn:Hdry.
  { injection Hmain as <-. simpl. split; [|left; split; [done|absent]].
    intros ? [= <-] _. repeat split; absent. }
  split; [intros ? [= <-]; congruence|].
  destruct (open_error w).
  - injection Hmain as <-. simpl. left. split; [done|absent].
  - injection Hmain as <-. simpl. right. by exists args, Bin, st.
Qed.

(** C10, as the source has it.  Universal binary: a slice whose patching
    returns an error is reported and the loop goes on with the next slice;
    at the end the run is a dry run with exit code 0, or fails to open the
    file and returns 1, or writes the working buffer and returns 0.  Thin
    binary: the same error makes [main] return 1 with the file unwritten. *)
Theorem slice_failure_asymmetry (cli : Expected ParsedOptions) (w : World (G:=G))
    (args : CommandLineArgs) :
  parseCommandLine cli = Some args ->
  getFile_error w = None ->
  let st0 := {| WritableMB := file w; generator := seed w; outs := [] |} in
  (forall Image ObjForArch rest MachOObj OriginalMB E st st1,
     getAsObjectFile ObjForArch = Success MachOObj ->
     patchMachOSlice distribution Image MachOObj OriginalMB (getOffset ObjForArch) args st
       = Some (Some E, st1) ->
     universalLoop distribution Image (ObjForArch :: rest) OriginalMB args st
     = universalLoop distribution Image rest OriginalMB args
         (print false [FailedToPatchSlice E] st1)) /\
  (forall objects st,
     createBinary w = Success (Universal objects) ->
     universalLoop distribution (file w) objects (file w) args st0 = Some st ->
     exists r, main distribution cli w = Some r /\
       exit_code r = (if dryRun args then 0 else if open_error w is Some _ then 1 else 0) /\
       file_after r = (if dryRun args then file w
                       else if open_error w is Some _ then file w else WritableMB st)) /\
  (forall MachOObj E st1,
     createBinary w = Success (Thin MachOObj) ->
     patchMachOSlice distribution (file w) MachOObj (file w) 0 args st0 = Some (Some E, st1) ->
     main distribution cli w
     = Some {| exit_code := 1; file_after := file w;
               file_ops := [OpCreateBinary; OpGetFile];
               printed := outs st1 ++ [FailedToPatchFile E] |}).
Proof.
  intros Hargs Hget st0. split; [|split].
  - intros Image ObjForArch rest MachOObj OriginalMB E st st1 HObj Hslice.
    simpl. by rewrite HObj, Hslice.
  - intros objects st HBin Hloop. unfold main.
    rewrite Hargs, HBin, Hget. simpl. fold st0. rewrite Hloop. simpl.
    destruct (dryRun args); [eauto|]. destruct (open_error w); eauto.
  - intros MachOObj E st1 HBin Hslice. unfold main.
    rewrite Hargs, HBin, Hget. simpl. fold st0. by rewrite Hslice.
Qed.

End Errors.

(** ** The passes run to completion *)

Section Totality.

Context {G : Type} (distribution : G -> nat * G).

Implicit Types st : state (G:=G).




Lemma categoryLoop_S (fuel : nat) (Image OriginalMB : bytes) (Contents : StringRef)
    (MachOObj : MachOObjectFile) (SliceOffset : Z) (args : CommandLineArgs) (i : Z) st :
  categoryLoop distribution (S fuel) Image OriginalMB Contents MachOObj SliceOffset args i st
  = if wrap32 (i + (if is64Bit MachOObj then 8 else 4)) <=? Size Contents then
      categorySlot distribution Image OriginalMB Contents MachOObj SliceOffset args i st
      ≫= categoryLoop distribution fuel Image OriginalMB Contents MachOObj SliceOffset args
            (wrap32 (i + (if is64Bit MachOObj then 8 else 4)))
    else Some st.
Proof. done. Qed.

(** While the 32-bit counter of the category loop cannot wrap, more fuel
    than the size of the contents changes nothing: a result that is missing
    is missing because of an access outside the buffers. *)
Lemma categoryLoop_fuel (fuel : nat) (Image OriginalMB : bytes) (Contents : StringRef)
    (MachOObj : MachOObjectFile) (SliceOffset : Z) (args : CommandLineArgs) (i : Z) st :
  Size Contents + 8 < 2 ^ 32 ->
  0 <= i <= Size Contents ->
  (Z.to_nat (Size Contents - i) <= fuel)%nat ->
  categoryLoop distribution (S fuel) Image OriginalMB Contents MachOObj SliceOffset args i st
  = categoryLoop distribution fuel Image OriginalMB Contents MachOObj SliceOffset args i st.
Proof.
  intros HSize. revert i st. induction fuel as [|fuel IH]; intros i st Hi Hfuel.
  - simpl. destruct (_ <=? _) eqn:Hcond; [|done]. apply Z.leb_le in Hcond.
    unfold wrap32 in Hcond.
    destruct (is64Bit MachOObj); rewrite Z.mod_small in Hcond by lia; lia.
  - rewrite (categoryLoop_S (S fuel)), (categoryLoop_S fuel _ _ _ _ _ _ i st).
    destruct (_ <=? _) eqn:Hcond; [|done]. apply Z.leb_le in Hcond.
    destruct (categorySlot _ _ _ _ _ _ _ _ _) as [st1|]; [|done].
    change (Some st1 ≫= ?f) with (f st1). cbv beta.
    unfold wrap32 in *.
    destruct (is64Bit MachOObj); rewrite Z.mod_small in * by lia; apply IH; lia.
Qed.

End Totality.

(** ** No terminator is ever overwritten *)

(** Writes over strings of the original buffer leave its NUL bytes alone. *)
Lemma string_writes_keep_NUL (Orig : bytes) (ws : list (Z * bytes)) (W : bytes) (j : nat) :
  Forall (string_write Orig) ws ->
  Orig !! j = Some NUL ->
  apply_writes ws W !! j = W !! j.
Proof.
  intros Hws Hj. apply apply_writes_frame. eapply Forall_impl; [exact Hws|].
  intros [p new] (Name & HName & Hlen) Hin. simpl in *.
  eapply cstr_at_not_NUL; [exact HName| |exact Hj]. lia.
Qed.

Section WholeRun.

Context {G : Type} (distribution : G -> nat * G).

Implicit Types st : state (G:=G).

Lemma patchClassNameSection_writes (Image : bytes) (Section : SectionRef)
    (MachOObj : MachOObjectFile) (SliceOffset : Z) (args : CommandLineArgs) st st' :
  0 <= SliceOffset -> 0 <= Sec_offset Section ->
  Z.of_nat (length Image) < 2 ^ 64 ->
  patchClassNameSection distribution Image Section MachOObj SliceOffset args st = Some st' ->
  exists ws, WritableMB st' = apply_writes ws (WritableMB st) /\
             Forall (string_write Image) ws.
Proof.
  intros Hs Ho Hlt. unfold patchClassNameSection.
  destruct (getContents Image MachOObj SliceOffset Section) as [Contents|] eqn:HC.
  - intros Hloop.
    pose proof (getContents_offsets _ _ _ _ _ Hs Ho Hlt HC) as Hoff.
    destruct (classNameLoop_performs distribution _ _ _ _ _ _ _ _ _
                (fun c Hc => proj1 (Hoff c Hc)) (Z.le_refl 0) Hloop) as (ws & Hp & Hq).
    exists ws. split; [by rewrite (performs_result _ _ _ _ _ Hp Hloop)|].
    eapply Forall_impl; [exact Hq|].
    intros [p new] (c & Name & Hin & _ & Hp' & Hlen). simpl in *. subst p.
    apply classEntries_elem in Hin as (_ & HName & _). by exists Name.
  - intros [= <-]. by exists [].
Qed.

Lemma patchCategoryListSection_writes (Image : bytes) (Section : SectionRef)
    (MachOObj : MachOObjectFile) (OriginalMB : bytes) (SliceOffset : Z)
    (args : CommandLineArgs) st st' :
  patchCategoryListSection distribution Image Section MachOObj OriginalMB SliceOffset
    args st = Some st' ->
  exists ws, WritableMB st' = apply_writes ws (WritableMB st) /\
             Forall (string_write OriginalMB) ws.
Proof.
  intros Hrun.
  destruct (patchCategoryListSection_performs distribution _ _ _ _ _ _ _ _ Hrun)
    as (ws & Hp & Hq).
  exists ws. split; [by rewrite (performs_result _ _ _ _ _ Hp Hrun)|].
  eapply Forall_impl; [exact Hq|].
  intros [p new] (Contents & _ & i & Name & _ & Hres & _ & Hlen).
  destruct Hres as (? & ? & ? & ? & _ & _ & _ & _ & _ & HName). by exists Name.
Qed.

Lemma sectionLoop_writes (Orig : bytes) (Sections : list SectionRef)
    (MachOObj : MachOObjectFile) (SliceOffset : Z) (args : CommandLineArgs) st E st' :
  0 <= SliceOffset ->
  Forall (fun Section => 0 <= Sec_offset Section) Sections ->
  Z.of_nat (length Orig) < 2 ^ 64 ->
  sectionLoop distribution Orig Sections MachOObj Orig SliceOffset args st = Some (E, st') ->
  exists ws, WritableMB st' = apply_writes ws (WritableMB st) /\
             Forall (string_write Orig) ws.
Proof.
  intros Hs Hsec Hlt. revert st.
  induction Hsec as [|Section rest Ho Hrest IH]; intros st; simpl.
  - intros [= <- <-]. by exists [].
  - destruct (getName Section) as [SectionName|]; [|intros [= <- <-]; by exists []].
    assert (forall st1, (if decide (SectionName = lit "__objc_classname")
                         then patchClassNameSection distribution Orig Section MachOObj
                                SliceOffset args st
                         else if decide (SectionName = lit "__objc_catlist")
                         then patchCategoryListSection distribution Orig Section MachOObj
                                Orig SliceOffset args st
                         else Some st) = Some st1 ->
            exists ws, WritableMB st1 = apply_writes ws (WritableMB st) /\
                       Forall (string_write Orig) ws) as Hstep.
    { intros st1. case_decide; [by apply patchClassNameSection_writes|].
      case_decide; [by apply patchCategoryListSection_writes|].
      intros [= <-]. by exists []. }
    destruct (if decide (SectionName = lit "__objc_classname") then _ else _) as [st1|];
      [|discriminate]. simpl.
    intros Hloop. destruct (Hstep st1 eq_refl) as (ws1 & HW1 & Hq1).
    destruct (IH _ Hloop) as (ws2 & HW2 & Hq2).
    exists (ws1 ++ ws2). split; [|by apply Forall_app].
    by rewrite apply_writes_app, <- HW1.
Qed.

Lemma universalLoop_writes (Orig : bytes) (objects : list ObjectForArch)
    (args : CommandLineArgs) st st' :
  wf_binary (Universal objects) ->
  Z.of_nat (length Orig) < 2 ^ 64 ->
  universalLoop distribution Orig objects Orig args st = Some st' ->
  exists ws, WritableMB st' = apply_writes ws (WritableMB st) /\
             Forall (string_write Orig) ws.
Proof.
  simpl. intros Hwf Hlt. revert st.
  induction Hwf as [|ObjForArch rest [Hoff Hobj] Hrest IH]; intros st; simpl.
  - intros [= <-]. by exists [].
  - destruct (getAsObjectFile ObjForArch) as [MachOObj|]; [|by intros ?%IH].
    destruct (patchMachOSlice _ _ _ _ _ _ _) as [[E st1]|] eqn:Hslice; [|discriminate].
    simpl. unfold patchMachOSlice in Hslice.
    apply sectionLoop_writes in Hslice as (ws1 & HW1 & Hq1);
      [|done|by apply Hobj|done].
    intros Hloop.
    assert (exists ws2, WritableMB st' = apply_writes ws2 (WritableMB st1) /\
                        Forall (string_write Orig) ws2) as (ws2 & HW2 & Hq2).
    { destruct E; by apply IH in Hloop. }
    exists (ws1 ++ ws2). split; [|by apply Forall_app].
    rewrite apply_writes_app. by rewrite HW2, HW1.
Qed.

(** X7. Whatever a run leaves in the file is the original file with strings
    overwritten by strings of the same length: the file keeps its length,
    and every NUL byte of the original, every terminator among them, is
    still in its place. *)
Theorem main_keeps_strings (cli : Expected ParsedOptions) (w : World (G:=G)) (Bin : Binary)
    (r : Run) :
  createBinary w = Success Bin ->
  wf_binary Bin ->
  Z.of_nat (length (file w)) < 2 ^ 64 ->
  main distribution cli w = Some r ->
  (exists ws, file_after r = apply_writes ws (file w) /\
              Forall (string_write (file w)) ws) /\
  length (file_after r) = length (file w) /\
  (forall j : nat, file w !! j = Some NUL -> file_after r !! j = Some NUL).
Proof.
  intros HBin Hwf Hlt Hmain.
  assert (exists ws, file_after r = apply_writes ws (file w) /\
                     Forall (string_write (file w)) ws) as (ws & HW & Hq).
  { unfold main in Hmain.
    destruct (parseCommandLine cli) as [args|]; [|injection Hmain as <-; by exists []].
    rewrite HBin in Hmain.
    destruct (getFile_error w); [injection Hmain as <-; by exists []|].
    destruct (patchBinary _ _ _ _ _) as [[st|[code out]]|] eqn:Hpatch; [| |discriminate];
      simpl in Hmain; [|injection Hmain as <-; by exists []].
    destruct (dryRun args); [injection Hmain as <-; by exists []|].
    destruct (open_error w); injection Hmain as <-; [by exists []|]. simpl.
    unfold patchBinary in Hpatch. destruct Bin as [objects|MachOObj|]; [| |discriminate].
    - destruct (universalLoop _ _ _ _ _ _) as [st1|] eqn:Hloop; [|discriminate].
      injection Hpatch as ->. by apply universalLoop_writes in Hloop.
    - destruct (patchMachOSlice _ _ _ _ _ _ _) as [[E st1]|] eqn:Hslice; [|discriminate].
      simpl in Hpatch. destruct E; [discriminate|]. injection Hpatch as ->.
      unfold patchMachOSlice in Hslice. by apply sectionLoop_writes in Hslice. }
  split; [by exists ws|]. rewrite HW. split.
  - apply apply_writes_length.
  - intros j Hj. by rewrite (string_writes_keep_NUL _ _ _ _ Hq Hj).
Qed.

End WholeRun.

(** ** C5: excluded class names over a whole run *)

Lemma slice_of_wf (Bin : Binary) (SliceOffset : Z) (MachOObj : MachOObjectFile) :
  wf_binary Bin -> slice_of Bin SliceOffset MachOObj ->
  0 <= SliceOffset /\ wf_object MachOObj.
Proof.
  destruct Bin as [objects|Obj|]; simpl; [|by intros ? [-> ->]|done].
  intros Hwf (ObjForArch & Hin & <- & HObj).
  rewrite Forall_forall in Hwf. destruct (Hwf _ Hin) as [Hoff Hwfo]. eauto.
Qed.

(** Two strings read at one offset of a buffer are one string. *)
Lemma classEntries_name (fuel fuel' : nat) (Image : bytes) (Contents Contents' : StringRef)
    (c c' : Z) (Name Name' : bytes) :
  (c, Name) ∈ classEntries fuel Image Contents 0 ->
  (c', Name') ∈ classEntries fuel' Image Contents' 0 ->
  Data Contents' + c' = Data Contents + c ->
  Name' = Name.
Proof.
  intros (_ & HN & _)%classEntries_elem (_ & HN' & _)%classEntries_elem Heq.
  rewrite Heq in HN'. congruence.
Qed.

Section RunExclusion.

Context {G : Type} (distribution : G -> nat * G).

Implicit Types st : state (G:=G).

(** What [patchMachOSlice] runs on one named section writes names of the
    run only. *)
Lemma sectionPass_targets (Orig : bytes) (Bin : Binary) (Section : SectionRef)
    (MachOObj : MachOObjectFile) (SliceOffset : Z) (args : CommandLineArgs)
    (SectionName : bytes) st st' :
  slice_of Bin SliceOffset MachOObj ->
  Section ∈ sections MachOObj ->
  getName Section = Success SectionName ->
  0 <= SliceOffset -> 0 <= Sec_offset Section ->
  Z.of_nat (length Orig) < 2 ^ 64 ->
  (if decide (SectionName = lit "__objc_classname") then
     patchClassNameSection distribution Orig Section MachOObj SliceOffset args st
   else if decide (SectionName = lit "__objc_catlist") then
     patchCategoryListSection distribution Orig Section MachOObj Orig SliceOffset args st
   else Some st) = Some st' ->
  exists ws, WritableMB st' = apply_writes ws (WritableMB st) /\
             Forall (run_write Orig Bin args) ws.
Proof.
  intros Hslice Hin HName Hs Ho Hlt. case_decide as Hcls; [|case_decide as Hcat].
  - subst SectionName. unfold patchClassNameSection.
    destruct (getContents Orig MachOObj SliceOffset Section) as [Contents|] eqn:HC;
      [|intros [= <-]; by exists []].
    intros Hloop.
    pose proof (getContents_offsets _ _ _ _ _ Hs Ho Hlt HC) as Hoff.
    destruct (classNameLoop_performs distribution _ _ _ _ _ _ _ _ _
                (fun c Hc => proj1 (Hoff c Hc)) (Z.le_refl 0) Hloop) as (ws & Hp & Hq).
    exists ws. split; [by rewrite (performs_result _ _ _ _ _ Hp Hloop)|].
    eapply Forall_impl; [exact Hq|].
    intros [p new] (c & Name & Hentry & Hex & Hp' & Hlen). simpl in *.
    exists Name. split; [exact Hlen|]. left. split; [|exact Hex].
    by exists SliceOffset, MachOObj, Section, Contents, c.
  - subst SectionName. intros Hrun.
    destruct (patchCategoryListSection_performs distribution _ _ _ _ _ _ _ _ Hrun)
      as (ws & Hp & Hq).
    exists ws. split; [by rewrite (performs_result _ _ _ _ _ Hp Hrun)|].
    eapply Forall_impl; [exact Hq|].
    intros [p new] (Contents & HC & i & Name & Hi & Hres & Hne & Hlen). simpl in *.
    exists Name. split; [exact Hlen|]. right. split; [|exact Hne].
    by exists SliceOffset, MachOObj, Section, Contents, i.
  - intros [= <-]. by exists [].
Qed.

Lemma sectionLoop_targets (Orig : bytes) (Bin : Binary) (Sections : list SectionRef)
    (MachOObj : MachOObjectFile) (SliceOffset : Z) (args : CommandLineArgs) st E st' :
  slice_of Bin SliceOffset MachOObj ->
  Forall (fun Section => (Section ∈ sections MachOObj) /\ 0 <= Sec_offset Section)
         Sections ->
  0 <= SliceOffset ->
  Z.of_nat (length Orig) < 2 ^ 64 ->
  sectionLoop distribution Orig Sections MachOObj Orig SliceOffset args st = Some (E, st') ->
  exists ws, WritableMB st' = apply_writes ws (WritableMB st) /\
             Forall (run_write Orig Bin args) ws.
Proof.
  intros Hslice Hsec Hs Hlt. revert st.
  induction Hsec as [|Section rest [Hin Ho] Hrest IH]; intros st; simpl.
  - intros [= <- <-]. by exists [].
  - destruct (getName Section) as [SectionName|] eqn:HName;
      [|intros [= <- <-]; by exists []].
    destruct (if decide (SectionName = lit "__objc_classname") then _ else _) as [st1|]
      eqn:Hpass; [|discriminate]. simpl.
    destruct (sectionPass_targets _ _ _ _ _ _ _ _ _ Hslice Hin HName Hs Ho Hlt Hpass)
      as (ws1 & HW1 & Hq1).
    intros Hloop. destruct (IH _ Hloop) as (ws2 & HW2 & Hq2).
    exists (ws1 ++ ws2). split; [|by apply Forall_app].
    by rewrite apply_writes_app, <- HW1.
Qed.

Lemma patchMachOSlice_targets (Orig : bytes) (Bin : Binary) (MachOObj : MachOObjectFile)
    (SliceOffset : Z) (args : CommandLineArgs) st E st' :
  wf_binary Bin ->
  slice_of Bin SliceOffset MachOObj ->
  Z.of_nat (length Orig) < 2 ^ 64 ->
  patchMachOSlice distribution Orig MachOObj Orig SliceOffset args st = Some (E, st') ->
  exists ws, WritableMB st' = apply_writes ws (WritableMB st) /\
             Forall (run_write Orig Bin args) ws.
Proof.
  intros Hwf Hslice Hlt Hrun. unfold patchMachOSlice in Hrun.
  destruct (slice_of_wf _ _ _ Hwf Hslice) as [Hs Hwfo].
  apply (sectionLoop_targets _ Bin) in Hrun as (ws & HW & Hq); [|done| |done|done].
  - by exists ws.
  - unfold wf_object in Hwfo. rewrite Forall_forall in Hwfo. apply Forall_forall.
    intros Section Hin. split; [exact Hin | by apply Hwfo].
Qed.

Lemma universalLoop_targets (Orig : bytes) (all objects : list ObjectForArch)
    (args : CommandLineArgs) st st' :
  wf_binary (Universal all) ->
  objects ⊆ all ->
  Z.of_nat (length Orig) < 2 ^ 64 ->
  universalLoop distribution Orig objects Orig args st = Some st' ->
  exists ws, WritableMB st' = apply_writes ws (WritableMB st) /\
             Forall (run_write Orig (Universal all) args) ws.
Proof.
  intros Hwf Hsub Hlt. revert st.
  induction objects as [|ObjForArch rest IH]; intros st; simpl.
  - intros [= <-]. by exists [].
  - assert (rest ⊆ all) as Hrest by (intros x Hx; apply Hsub; by apply list_elem_of_further).
    destruct (getAsObjectFile ObjForArch) as [MachOObj|] eqn:HObj; [|by intros ?%(IH Hrest)].
    destruct (patchMachOSlice _ _ _ _ _ _ _) as [[E st1]|] eqn:Hslice; [|discriminate].
    simpl.
    apply (patchMachOSlice_targets _ (Universal all)) in Hslice as (ws1 & HW1 & Hq1);
      [|done| |done].
    + intros Hloop.
      assert (exists ws2, WritableMB st' = apply_writes ws2 (WritableMB st1) /\
                          Forall (run_write Orig (Universal all) args) ws2)
        as (ws2 & HW2 & Hq2).
      { destruct E; by apply (IH Hrest) in Hloop. }
      exists (ws1 ++ ws2). split; [|by apply Forall_app].
      rewrite apply_writes_app. by rewrite HW2, HW1.
    + exists ObjForArch. split; [apply Hsub, list_elem_of_here | done].
Qed.

(** Every write of a run overwrites a class-name entry that is not excluded
    or the name a category slot resolves to. *)
Lemma main_targets (cli : Expected ParsedOptions) (w : World (G:=G))
    (args : CommandLineArgs) (Bin : Binary) (r : Run) :
  parseCommandLine cli = Some args ->
  createBinary w = Success Bin ->
  wf_binary Bin ->
  Z.of_nat (length (file w)) < 2 ^ 64 ->
  main distribution cli w = Some r ->
  exists ws, file_after r = apply_writes ws (file w) /\
             Forall (run_write (file w) Bin args) ws.
Proof.
  intros Hargs HBin Hwf Hlt Hmain. unfold main in Hmain. rewrite Hargs, HBin in Hmain.
  destruct (getFile_error w); [injection Hmain as <-; by exists []|].
  destruct (patchBinary _ _ _ _ _) as [[st|[code out]]|] eqn:Hpatch; [| |discriminate];
    simpl in Hmain; [|injection Hmain as <-; by exists []].
  destruct (dryRun args); [injection Hmain as <-; by exists []|].
  destruct (open_error w); injection Hmain as <-; [by exists []|]. simpl.
  unfold patchBinary in Hpatch. destruct Bin as [objects|MachOObj|]; [| |discriminate].
  - destruct (universalLoop _ _ _ _ _ _) as [st1|] eqn:Hloop; [|discriminate].
    injection Hpatch as ->. by apply (universalLoop_targets _ objects) in Hloop.
  - destruct (patchMachOSlice _ _ _ _ _ _ _) as [[E st1]|] eqn:Hslice; [|discriminate].
    simpl in Hpatch. destruct E; [discriminate|]. injection Hpatch as ->.
    by apply (patchMachOSlice_targets _ (Thin MachOObj)) in Hslice.
Qed.

(** C5, as the code keeps it.  Take an entry of a class-name section of a
    slice whose exact text is in the exclusion set.  After the run, every
    byte of the entry, terminator included, that lies in no name a category
    slot resolves to and in no class-name entry that starts at another
    offset is as it was in the file, in Randomize and in Replace mode alike;
    and the pass over the entry's section leaves the entry alone in the
    working buffer and prints the exclusion unless quiet. *)
Theorem main_skips_excluded (cli : Expected ParsedOptions) (w : World (G:=G))
    (args : CommandLineArgs) (Bin : Binary) (r : Run) (SliceOffset : Z)
    (MachOObj : MachOObjectFile) (Section : SectionRef) (Contents : StringRef)
    (c : Z) (Name : bytes) :
  parseCommandLine cli = Some args ->
  createBinary w = Success Bin ->
  wf_binary Bin ->
  Z.of_nat (length (file w)) < 2 ^ 64 ->
  main distribution cli w = Some r ->
  slice_of Bin SliceOffset MachOObj ->
  Section ∈ sections MachOObj ->
  getName Section = Success (lit "__objc_classname") ->
  getContents (file w) MachOObj SliceOffset Section = Success Contents ->
  (c, Name) ∈ classEntries (Z.to_nat (Size Contents)) (file w) Contents 0 ->
  Name ∈ excludedClasses args ->
  (forall j : nat,
     (Z.to_nat (Data Contents + c) <= j <= Z.to_nat (Data Contents + c) + length Name)%nat ->
     (forall q N, category_name_at (file w) Bin q N -> ~ inside q N j) ->
     (forall q N, class_name_at (file w) Bin q N -> q <> Data Contents + c ->
                  ~ inside q N j) ->
     file_after r !! j = file w !! j) /\
  (forall st st',
     patchClassNameSection distribution (file w) Section MachOObj SliceOffset args st
       = Some st' ->
     (forall j : nat,
        (Z.to_nat (Data Contents + c) <= j <= Z.to_nat (Data Contents + c) + length Name)%nat ->
        WritableMB st' !! j = WritableMB st !! j) /\
     (quietMode args = false -> SkippingExcludedClass Name ∈ outs st')).
Proof.
  intros Hargs HBin Hwf Hlt Hmain Hslice Hin HName HC Hentry Hex. split.
  - destruct (main_targets _ _ _ _ _ Hargs HBin Hwf Hlt Hmain) as (ws & -> & Hq).
    intros j Hj Hcat Hcls. apply apply_writes_frame.
    eapply Forall_impl; [exact Hq|].
    intros [q new] (N & Hlen & [[Hat Hnot]|[Hat _]]); simpl in *; rewrite Hlen.
    + destruct (decide (q = Data Contents + c)) as [->|Hne];
        [|exact (Hcls q N Hat Hne)].
      destruct Hat as (SliceOffset' & MachOObj' & Section' & Contents' & c' & _ & _ & _ & _
                       & Hentry' & Heq).
      by rewrite (classEntries_name _ _ _ _ _ _ _ _ _ Hentry Hentry' (eq_sym Heq)) in Hnot.
    + exact (Hcat q N Hat).
  - destruct (slice_of_wf _ _ _ Hwf Hslice) as [Hs Hwfo].
    unfold wf_object in Hwfo. rewrite Forall_forall in Hwfo.
    intros st st' Hpass.
    exact (patchClassNameSection_skips_excluded distribution _ _ _ _ _ _ _ _ _ _
             Hs (Hwfo _ Hin) Hlt HC Hpass Hentry Hex).
Qed.

End RunExclusion.

(** * The properties on the sample inputs *)

Lemma Keep_excluded : lit "Keep" ∈ excludedClasses randomize_args.
Proof. apply (bool_decide_unpack _). vm_compute. exact I. Qed.


(** C1 on the sample: replacing in ["FooBarFoo"] at offset 21 keeps the
    length of the buffer and the terminator at offset 30. *)
Lemma patchName_keeps_length_witness :
  valid_args replace_Foo_args /\
  cstr_at sample_image 21 = Some (lit "FooBarFoo") /\
  length (WritableMB (sample_state sample_image)) = length sample_image /\
  patchName sample_distribution CLASS replace_Foo_args (lit "FooBarFoo") 21
    (sample_state sample_image) = Some after_replace /\
  length (WritableMB after_replace) = length sample_image /\
  WritableMB after_replace !! 30%nat = sample_image !! 30%nat.
Proof.
  assert (valid_args replace_Foo_args) as H1 by reflexivity.
  assert (cstr_at sample_image 21 = Some (lit "FooBarFoo")) as H2 by (vm_compute; reflexivity).
  assert (length (WritableMB (sample_state sample_image)) = length sample_image) as H3
    by reflexivity.
  assert (patchName sample_distribution CLASS replace_Foo_args (lit "FooBarFoo") 21
            (sample_state sample_image) = Some after_replace) as H4
    by (vm_compute; reflexivity).
  destruct (patchName_keeps_length sample_distribution CLASS replace_Foo_args sample_image 21
              (lit "FooBarFoo") (sample_state sample_image) after_replace H1 H2 H3 H4)
    as (new & _ & _ & Hlen & Hframe & _).
  refine (conj H1 (conj H2 (conj H3 (conj H4 (conj Hlen (Hframe 30%nat _)))))).
  right. vm_compute. lia.
Defined.




(** C5 on a run: with the category's name pointer leading to
    ["FooBarFoo"], a run that excludes ["Keep"] changes the file and leaves
    the bytes of ["Keep"] at offsets 16 to 19 and its terminator at offset
    20 as they were. *)
Lemma main_skips_excluded_witness :
  parseCommandLine (Success (sample_options [lit "Keep"] false [])) = Some randomize_args /\
  main sample_distribution (Success (sample_options [lit "Keep"] false [])) sample_foo_world
  = Some after_foo_run /\
  ((0, lit "Keep") ∈ classEntries (Z.to_nat (Size classname_contents)) sample_foo_image
                      classname_contents 0) /\
  file_after after_foo_run <> sample_foo_image /\
  (forall j : nat, (16 <= j <= 20)%nat -> file_after after_foo_run !! j = sample_foo_image !! j).
Proof.
  assert (parseCommandLine (Success (sample_options [lit "Keep"] false []))
          = Some randomize_args) as H1 by reflexivity.
  assert (main sample_distribution (Success (sample_options [lit "Keep"] false []))
            sample_foo_world = Some after_foo_run) as H2 by (vm_compute; reflexivity).
  assert (classEntries (Z.to_nat (Size classname_contents)) sample_foo_image
            classname_contents 0 = [(0, lit "Keep"); (5, lit "FooBarFoo")]) as Hentries
    by (vm_compute; reflexivity).
  assert ((0, lit "Keep") ∈ classEntries (Z.to_nat (Size classname_contents)) sample_foo_image
                             classname_contents 0) as H3
    by (rewrite Hentries; apply list_elem_of_here).
  assert (wf_binary (Thin sample_thin)) as Hwf.
  { unfold wf_binary, wf_object. simpl.
    repeat (apply Forall_cons; split); simpl; try lia; done. }
  assert (Z.of_nat (length (file sample_foo_world)) < 2 ^ 64) as Hlt
    by (vm_compute; reflexivity).
  assert (slice_of (Thin sample_thin) 0 sample_thin) as Hslice by done.
  assert (sample_classname ∈ sections sample_thin) as Hin by apply list_elem_of_here.
  assert (getContents (file sample_foo_world) sample_thin 0 sample_classname
          = Success classname_contents) as HC by (vm_compute; reflexivity).
  destruct (main_skips_excluded sample_distribution _ sample_foo_world randomize_args
              (Thin sample_thin) after_foo_run 0 sample_thin sample_classname
              classname_contents 0 (lit "Keep") H1 eq_refl Hwf Hlt H2 Hslice Hin eq_refl HC
              H3 Keep_excluded) as [Hrun _].
  refine (conj H1 (conj H2 (conj H3 (conj _ _)))); [vm_compute; discriminate|].
  intros j Hj. apply Hrun; [vm_compute; lia| |].
  - intros q N (SliceOffset & MachOObj & Section & Contents & i & [-> ->] & HS & HN & HCo
                & Hi & Hres).
    apply elem_of_cons in HS as [->|HS]; [discriminate|].
    apply elem_of_cons in HS as [->|HS]; [|by apply elem_of_nil in HS].
    vm_compute in HCo. injection HCo as <-.
    assert (i = 0) as -> by (unfold slot in Hi; simpl in Hi; lia).
    destruct Hres as (cva & coff & nva & noff & R1 & R2 & R3 & R4 & -> & R5).
    vm_compute in R1. injection R1 as <-.
    vm_compute in R2. injection R2 as <-.
    vm_compute in R3. injection R3 as <-.
    vm_compute in R4. injection R4 as <-.
    vm_compute in R5. injection R5 as <-.
    unfold inside. vm_compute. lia.
  - intros q N (SliceOffset & MachOObj & Section & Contents & c & [-> ->] & HS & HN & HCo
                & Hentry & ->).
    apply elem_of_cons in HS as [->|HS].
    + assert (Contents = classname_contents) as -> by congruence.
      change (file sample_foo_world) with sample_foo_image in Hentry.
      rewrite Hentries in Hentry.
      apply elem_of_cons in Hentry as [[= -> ->]|Hentry]; [done|].
      apply elem_of_cons in Hentry as [[= -> ->]|Hentry]; [|by apply elem_of_nil in Hentry].
      intros _. unfold inside. vm_compute. lia.
    + apply elem_of_cons in HS as [->|HS]; [discriminate|by apply elem_of_nil in HS].
Defined.

(** C5 as stated fails for the run as a whole: the category pass has no
    exclusion check, so where a category's name pointer leads to an excluded
    entry of the class-name section, the entry is overwritten after the
    class-name pass has skipped it. *)
Lemma excluded_class_overwritten :
  exists r : Run,
    main sample_distribution (Success (sample_options [lit "Keep"] false []))
      (sample_world (Success (Thin sample_thin)) None) = Some r /\
    (0, lit "Keep") ∈ classEntries 15 sample_image classname_contents 0 /\
    lit "Keep" ∈ excludedClasses randomize_args /\
    take 4 (drop 16 sample_image) = lit "Keep" /\
    take 4 (drop 16 (file_after r)) <> lit "Keep".
Proof.
  eexists. split; [vm_compute; reflexivity|].
  split; [vm_compute; apply list_elem_of_here|].
  split; [exact Keep_excluded|].
  split; [reflexivity|]. vm_compute. discriminate.
Qed.

(** The exclusion does not protect an entry from a class-name entry that
    starts elsewhere and runs over it either: the three bytes of the first
    section hold no terminator, its entry is read as ["FooBarFoo"], and the
    pass over it overwrites the excluded ["BarFoo"] of the section that
    follows. *)
Lemma excluded_class_overrun :
  exists r : Run,
    main sample_distribution (Success (sample_options [lit "BarFoo"] false []))
      (sample_world (Success (Thin (sample_object [sample_unterminated; sample_tail]))) None)
    = Some r /\
    ((0, lit "BarFoo") ∈ classEntries 7 sample_image {| Data := 24; Size := 7 |} 0) /\
    ((0, lit "FooBarFoo") ∈ classEntries 3 sample_image {| Data := 21; Size := 3 |} 0) /\
    take 6 (drop 24 sample_image) = lit "BarFoo" /\
    take 6 (drop 24 (file_after r)) <> lit "BarFoo".
Proof.
  eexists. split; [vm_compute; reflexivity|].
  split; [vm_compute; apply list_elem_of_here|].
  split; [vm_compute; apply list_elem_of_here|].
  split; [reflexivity|]. vm_compute. discriminate.
Qed.

(** C6 on the example of the specification: pattern ["AB"], replacement
    ["C"]. *)
Lemma main_rejects_bad_replace_witness :
  replace_args (sample_options [] false [lit "AB"; lit "C"]) = [lit "AB"; lit "C"] /\
  length (lit "AB") <> length (lit "C") /\
  main sample_distribution (Success (sample_options [] false [lit "AB"; lit "C"]))
    (sample_world (Success (Thin sample_thin)) None)
  = Some {| exit_code := 1; file_after := sample_image; file_ops := []; printed := [] |}.
Proof.
  assert (length (lit "AB") <> length (lit "C")) as H by (vm_compute; discriminate).
  refine (conj eq_refl (conj H _)).
  exact (proj2 (main_rejects_bad_replace sample_distribution
                  (sample_options [] false [lit "AB"; lit "C"]) (lit "AB") (lit "C") []
                  (sample_world (Success (Thin sample_thin)) None) eq_refl (or_intror H))).
Defined.

(** C7 on the sample: an unreadable name ends the slice, unreadable contents
    do not. *)
Lemma sectionLoop_errors_witness :
  sectionLoop sample_distribution sample_image [sample_unnamed; sample_classname]
    sample_broken sample_image 0 randomize_args (sample_state sample_image)
  = Some (Some "truncated section name"%string, sample_state sample_image) /\
  sectionLoop sample_distribution sample_image [sample_unreadable; sample_catlist]
    sample_thin sample_image 0 randomize_args (sample_state sample_image)
  = sectionLoop sample_distribution sample_image [sample_catlist]
      sample_thin sample_image 0 randomize_args (sample_state sample_image).
Proof.
  split.
  - exact (proj1 (sectionLoop_errors sample_distribution sample_image sample_unnamed
                    [sample_classname] sample_broken sample_image 0 randomize_args
                    (sample_state sample_image)) _ eq_refl).
  - exact (proj2 (sectionLoop_errors sample_distribution sample_image sample_unreadable
                    [sample_catlist] sample_thin sample_image 0 randomize_args
                    (sample_state sample_image)) _ _ eq_refl eq_refl).
Defined.

(** C7 as stated fails: after a section whose name cannot be read, the
    class-name section of the same slice is not patched, although it is
    patched when the unnamed section is absent. *)
Lemma unnamed_section_aborts_slice :
  patchMachOSlice sample_distribution sample_image sample_broken sample_image 0
    randomize_args (sample_state sample_image)
  = Some (Some "truncated section name"%string, after_broken) /\
  WritableMB after_broken = sample_image /\
  exists st' : state (G:=nat),
    patchMachOSlice sample_distribution sample_image (sample_object [sample_classname])
      sample_image 0 randomize_args (sample_state sample_image) = Some (None, st') /\
    WritableMB st' <> sample_image.
Proof.
  split; [vm_compute; reflexivity|]. split; [reflexivity|].
  eexists. split; [vm_compute; reflexivity|]. vm_compute. discriminate.
Qed.

(** C8 on the sample: a dry run over a thin binary returns 0 and leaves the
    file alone. *)
Lemma main_persistence_witness :
  main sample_distribution (Success (sample_options [lit "Keep"] true []))
    (sample_world (Success (Thin sample_thin)) None) = Some after_dry_run /\
  file_after after_dry_run = sample_image /\
  (forall data, OpWrite data ∉ file_ops after_dry_run) /\
  exit_code after_dry_run = 0.
Proof.
  assert (main sample_distribution (Success (sample_options [lit "Keep"] true []))
            (sample_world (Success (Thin sample_thin)) None) = Some after_dry_run) as H1
    by (vm_compute; reflexivity).
  destruct (main_persistence sample_distribution _ _ _ H1) as (Hdry & _).
  destruct (Hdry (sample_args [lit "Keep"] false true [] []) eq_refl eq_refl)
    as (Hfile & _ & Hwrite & Hexit).
  refine (conj H1 (conj Hfile (conj Hwrite _))).
  eapply (Hexit (Thin sample_thin)); [reflexivity | reflexivity |].
  vm_compute. reflexivity.
Defined.

(** C8 as stated fails: a dry run over a file that is no Mach-O binary
    returns 1. *)
Lemma dry_run_exit_1 :
  exists r : Run,
    dryRun (sample_args [] false true [] []) = true /\
    parseCommandLine (Success (sample_options [] true []))
      = Some (sample_args [] false true [] []) /\
    main sample_distribution (Success (sample_options [] true []))
      (sample_world (Success OtherBinary) None) = Some r /\
    exit_code r = 1 /\ file_after r = sample_image.
Proof. eexists. repeat split; vm_compute; reflexivity. Qed.


(** C10 on the sample: the same broken slice lets a universal run finish
    with 0 and makes a thin run return 1. *)
Lemma slice_failure_asymmetry_witness :
  (exists r : Run,
     main sample_distribution (Success (sample_options [lit "Keep"] false []))
       (sample_world (Success (Universal [sample_member])) None) = Some r /\
     exit_code r = 0 /\ file_after r = sample_image) /\
  main sample_distribution (Success (sample_options [lit "Keep"] false []))
    (sample_world (Success (Thin sample_broken)) None)
  = Some {| exit_code := 1; file_after := sample_image;
            file_ops := [OpCreateBinary; OpGetFile];
            printed := [PatchingArchitecture "arm64"%string 0;
                        FailedToPatchFile "truncated section name"%string] |}.
Proof.
  pose proof (slice_failure_asymmetry sample_distribution
                (Success (sample_options [lit "Keep"] false []))
                (sample_world (Success (Universal [sample_member])) None)
                randomize_args eq_refl eq_refl) as (_ & Huni & _).
  pose proof (slice_failure_asymmetry sample_distribution
                (Success (sample_options [lit "Keep"] false []))
                (sample_world (Success (Thin sample_broken)) None)
                randomize_args eq_refl eq_refl) as (_ & _ & Hthin).
  split.
  - destruct (Huni [sample_member]
                (print false [FailedToPatchSlice "truncated section name"%string] after_broken)
                eq_refl ltac:(vm_compute; reflexivity)) as (r & Hr & Hexit & Hfile).
    exists r. split; [exact Hr|]. split; [exact Hexit | exact Hfile].
  - exact (Hthin sample_broken "truncated section name"%string after_broken eq_refl
             ltac:(vm_compute; reflexivity)).
Defined.

(** C10 as stated fails where the file cannot be opened for writing: the
    universal run then returns 1 and nothing is persisted. *)
Lemma universal_unwritable_exit_1 :
  exists r : Run,
    main sample_distribution (Success (sample_options [lit "Keep"] false []))
      (sample_world (Success (Universal [sample_member])) (Some "read-only"%string))
    = Some r /\
    exit_code r = 1 /\ file_after r = sample_image /\
    FailedToPatchSlice "truncated section name"%string ∈ printed r.
Proof.
  eexists. split; [vm_compute; reflexivity|]. split; [reflexivity|]. split; [reflexivity|].
  simpl. rewrite !elem_of_cons. tauto.
Qed.

(** * Further properties of the source *)

(** ** [generateRandomString] *)

Lemma charset_length : length charset = 62%nat.
Proof. reflexivity. Qed.

Lemma charset_no_NUL : NUL ∉ charset.
Proof. apply (bool_decide_unpack _). vm_compute. exact I. Qed.

Section RandomString.

Context {G : Type} (distribution : G -> nat * G).

(** X1. As long as the distribution keeps to its range [0, 61], the string
    [generateRandomString] returns for a length has exactly that length and
    consists of letters and digits of the alphabet of line 92 only; in
    particular it holds no NUL byte. *)
Theorem generateRandomString_alphanumeric (n : nat) (g : G) :
  (forall g' : G, ((distribution g').1 < 62)%nat) ->
  length (generateRandomString distribution n g).1 = n /\
  Forall (fun b => b ∈ charset) (generateRandomString distribution n g).1 /\
  NUL ∉ (generateRandomString distribution n g).1.
Proof.
  intros Hrange.
  assert (Forall (fun b => b ∈ charset) (generateRandomString distribution n g).1) as Hall.
  { revert g. induction n as [|n IH]; intros g; simpl; [done|].
    pose proof (Hrange g) as Hk. destruct (distribution g) as [k g1]. simpl in Hk.
    specialize (IH g1). destruct (generateRandomString distribution n g1) as [s g2].
    simpl in *. apply Forall_cons. split; [|done].
    destruct (lookup_lt_is_Some_2 charset k) as [b Hb]; [by rewrite charset_length|].
    rewrite Hb. simpl. by eapply list_elem_of_lookup_2. }
  split; [apply generateRandomString_length|]. split; [done|].
  intros HNUL. rewrite Forall_forall in Hall. by apply charset_no_NUL, Hall.
Qed.

End RandomString.

Lemma sample_distribution_range (g : nat) : ((sample_distribution g).1 < 62)%nat.
Proof. unfold sample_distribution. cbn [fst]. apply Nat.mod_upper_bound. lia. Qed.

(** X1 on the sample generator. *)
Lemma generateRandomString_alphanumeric_witness :
  (generateRandomString sample_distribution 4 5%nat).1 = lit "fCUN" /\
  length (generateRandomString sample_distribution 4 5%nat).1 = 4%nat /\
  Forall (fun b => b ∈ charset) (generateRandomString sample_distribution 4 5%nat).1 /\
  NUL ∉ (generateRandomString sample_distribution 4 5%nat).1.
Proof.
  split; [vm_compute; reflexivity|].
  exact (generateRandomString_alphanumeric sample_distribution 4 5%nat
           sample_distribution_range).
Defined.

(** ** [virtualAddressToFileOffset] *)

(** X2 on four load commands: one that is no segment, a segment that does
    not contain the address, and two that do; the first of the two
    answers. *)
Lemma translate_first_witness :
  let other := LC_other 0x32 in
  let low := LC_SEGMENT {| vmaddr := 0; vmsize := 0x1000; fileoff := 0 |} in
  let text := LC_SEGMENT_64 {| vmaddr_64 := 0x1000; vmsize_64 := 0x200; fileoff_64 := 0x400 |} in
  let again := LC_SEGMENT_64 {| vmaddr_64 := 0x1000; vmsize_64 := 0x800; fileoff_64 := 0x9000 |} in
  contains text 0x1050 /\ contains again 0x1050 /\
  translate ([other; low] ++ text :: [again]) 0x1050 = Some 0x450.
Proof.
  intros other low text again.
  assert (contains text 0x1050) as Hc by (simpl; lia).
  assert (contains again 0x1050) as Hc' by (simpl; lia).
  refine (conj Hc (conj Hc' _)).
  apply (translate_first [other; low] [again] text 0x1050).
  - repeat (apply Forall_cons; split); simpl; try lia; try done.
  - repeat (apply Forall_cons; split); simpl; try lia; try done.
  - exact Hc.
Defined.

(** X3. On segment commands whose ranges stay inside their width, an address
    that [virtualAddressToFileOffset] resolves lies in the half-open range of
    one of the object's segment commands, and the offset returned is that
    segment's [fileoff + (VA - vmaddr)]: it never answers for an address no
    segment contains, and the other load commands play no part. *)
Theorem virtualAddressToFileOffset_sound (Obj : MachOObjectFile) (VA off : Z) :
  Forall in_range (load_commands Obj) ->
  virtualAddressToFileOffset Obj VA = Some off ->
  exists lc : load_command,
    lc ∈ load_commands Obj /\ contains lc VA /\ off = file_offset lc VA.
Proof.
  unfold virtualAddressToFileOffset.
  induction (load_commands Obj) as [|lc LCs IH]; [discriminate|].
  intros [Hr Hrs]%Forall_cons. simpl.
  assert (translate LCs VA = Some off ->
          exists lc0, lc0 ∈ lc :: LCs /\ contains lc0 VA /\ off = file_offset lc0 VA) as Hrest.
  { intros (lc0 & Hin & ?)%IH; [|done]. exists lc0. split; [|done].
    by apply list_elem_of_further. }
  destruct lc as [Seg|Seg|cmd]; [| |done]; simpl in Hr.
  - destruct (_ && _) eqn:Hcond; [|done].
    apply andb_true_iff in Hcond as [H1%Z.leb_le H2%Z.ltb_lt].
    unfold wrap64 in *. rewrite (Z.mod_small (vmaddr_64 Seg + vmsize_64 Seg)) in H2 by lia.
    rewrite (Z.mod_small (VA - _)) by lia. rewrite Z.mod_small by lia.
    intros [= <-]. exists (LC_SEGMENT_64 Seg).
    split; [apply list_elem_of_here|]. simpl. lia.
  - destruct (_ && _) eqn:Hcond; [|done].
    apply andb_true_iff in Hcond as [H1%Z.leb_le H2%Z.ltb_lt].
    unfold wrap32, wrap64 in *. rewrite (Z.mod_small (vmaddr Seg + vmsize Seg)) in H2 by lia.
    rewrite (Z.mod_small (VA - _)) by lia. rewrite Z.mod_small by lia.
    intros [= <-]. exists (LC_SEGMENT Seg).
    split; [apply list_elem_of_here|]. simpl. lia.
Qed.

(** X3 on the sample slice. *)
Lemma virtualAddressToFileOffset_sound_witness :
  Forall in_range (load_commands sample_thin) /\
  virtualAddressToFileOffset sample_thin 0x1010 = Some 16 /\
  exists lc : load_command,
    lc ∈ load_commands sample_thin /\ contains lc 0x1010 /\ 16 = file_offset lc 0x1010.
Proof.
  assert (Forall in_range (load_commands sample_thin)) as H1.
  { apply Forall_singleton. simpl. lia. }
  assert (virtualAddressToFileOffset sample_thin 0x1010 = Some 16) as H2 by reflexivity.
  exact (conj H1 (conj H2 (virtualAddressToFileOffset_sound sample_thin 0x1010 16 H1 H2))).
Defined.

(** ** The replace loop *)

(** X4. With a non-empty pattern the loop of lines 168-172 ends whatever the
    replacement is, shorter, longer or holding the pattern itself: what was
    put is never scanned again.  It returns the left-to-right replacement of
    the non-overlapping occurrences, and its flag tells whether the pattern
    occurs in the name. *)
Theorem replaceName_any_replacement (pat rep s : bytes) :
  pat <> [] ->
  exists replaced : bool,
    replaceName pat rep s = Some (replace_spec pat rep s, replaced) /\
    (replaced = true <-> occurs pat s).
Proof.
  intros Hpat. exists (bool_decide (is_Some (find_first s pat))).
  split; [by apply replaceName_spec|].
  rewrite bool_decide_eq_true. symmetry. apply occurs_find_first.
Qed.

(** X4 on a replacement that holds the pattern and on an empty one. *)
Lemma replaceName_any_replacement_witness :
  lit "A" <> [] /\
  replaceName (lit "A") (lit "AA") (lit "ABA") = Some (lit "AABAA", true) /\
  replaceName (lit "ab") [] (lit "xabab") = Some (lit "x", true) /\
  exists replaced : bool,
    replaceName (lit "A") (lit "AA") (lit "ABA")
    = Some (replace_spec (lit "A") (lit "AA") (lit "ABA"), replaced) /\
    (replaced = true <-> occurs (lit "A") (lit "ABA")).
Proof.
  assert (lit "A" <> []) as H by discriminate.
  refine (conj H (conj eq_refl (conj eq_refl _))).
  exact (replaceName_any_replacement (lit "A") (lit "AA") (lit "ABA") H).
Defined.

Lemma replace_spec_same (pat s : bytes) :
  pat <> [] -> replace_spec pat pat s = s.
Proof.
  intros Hpat. remember (length s) as n eqn:Hn. revert s Hn.
  induction n as [n IH] using lt_wf_ind. intros s ->.
  destruct (find_first s pat) as [i|] eqn:Hf; [|by apply replace_spec_none].
  rewrite (replace_spec_first _ _ _ _ Hpat Hf).
  destruct (find_first_split _ _ _ Hf) as (Hsplit & Hi).
  rewrite (IH (length (drop (i + length pat) s))); [by rewrite <- Hsplit| |done].
  rewrite length_drop. destruct pat; [done|]. simpl in *. lia.
Qed.

(** X5. Replacing a pattern by itself gives the name back, byte for byte;
    the flag still reports a replacement when the pattern occurs. *)
Theorem replaceName_same (pat s : bytes) :
  pat <> [] ->
  exists replaced : bool,
    replaceName pat pat s = Some (s, replaced) /\ (replaced = true <-> occurs pat s).
Proof.
  intros Hpat. exists (bool_decide (is_Some (find_first s pat))). split.
  - by rewrite (replaceName_spec _ _ _ Hpat), replace_spec_same.
  - rewrite bool_decide_eq_true. symmetry. apply occurs_find_first.
Qed.

Lemma replaceName_same_witness :
  lit "Foo" <> [] /\
  exists replaced : bool,
    replaceName (lit "Foo") (lit "Foo") (lit "FooBarFoo") = Some (lit "FooBarFoo", replaced) /\
    (replaced = true <-> occurs (lit "Foo") (lit "FooBarFoo")).
Proof.
  assert (lit "Foo" <> []) as H by discriminate.
  exact (conj H (replaceName_same (lit "Foo") (lit "FooBarFoo") H)).
Defined.

(** ** Quiet mode *)

Section Quiet.

Context {G : Type} (distribution : G -> nat * G).

Implicit Types st : state (G:=G).

Lemma patchName_quiet (k : kind) (args : CommandLineArgs) (Name : bytes) (p : Z) st
    (o : list message) :
  patchName distribution k (quiet_args args) Name p (with_outs st o)
  = (fun st' => with_outs st' o) <$> patchName distribution k args Name p st.
Proof.
  unfold patchName. simpl. destruct (negb _).
  - destruct (replaceName _ _ _) as [[newName [|]]|]; simpl; [|done|done].
    destruct (c_str_read _ _); simpl; [|done]. by destruct (memcpy _ _ _).
  - destruct (generateRandomString _ _ _) as [RandomString g].
    by destruct (memcpy _ _ _).
Qed.

Lemma classNameLoop_quiet (fuel : nat) (Image : bytes) (Contents : StringRef)
    (SliceOffset SectionFileOffset : Z) (args : CommandLineArgs) (Current : Z) st
    (o : list message) :
  classNameLoop distribution fuel Image Contents SliceOffset SectionFileOffset
    (quiet_args args) Current (with_outs st o)
  = (fun st' => with_outs st' o)
      <$> classNameLoop distribution fuel Image Contents SliceOffset SectionFileOffset
            args Current st.
Proof.
  revert Current st. induction fuel as [|fuel IH]; intros Current st; simpl.
  - by destruct (_ <? _).
  - destruct (_ <? _); [|done]. destruct (cstr_at _ _) as [Name|]; [|done]. simpl.
    case_decide; [apply IH|]. case_decide.
    + apply (IH _ (print (quietMode args) [SkippingExcludedClass Name] st)).
    + rewrite patchName_quiet. destruct (patchName _ _ args _ _ _) as [st1|]; [|done].
      apply IH.
Qed.

Lemma categoryLoop_quiet (fuel : nat) (Image OriginalMB : bytes) (Contents : StringRef)
    (MachOObj : MachOObjectFile) (SliceOffset : Z) (args : CommandLineArgs) (i : Z) st
    (o : list message) :
  categoryLoop distribution fuel Image OriginalMB Contents MachOObj SliceOffset
    (quiet_args args) i (with_outs st o)
  = (fun st' => with_outs st' o)
      <$> categoryLoop distribution fuel Image OriginalMB Contents MachOObj SliceOffset
            args i st.
Proof.
  revert i st. induction fuel as [|fuel IH]; intros i st; simpl.
  - by destruct (_ <=? _).
  - destruct (_ <=? _); [|done].
    assert (categorySlot distribution Image OriginalMB Contents MachOObj SliceOffset
              (quiet_args args) i (with_outs st o)
            = (fun st' => with_outs st' o)
                <$> categorySlot distribution Image OriginalMB Contents MachOObj SliceOffset
                      args i st) as ->.
    { unfold categorySlot. destruct (load _ Image _); [|done]. simpl.
      destruct (virtualAddressToFileOffset _ _); [|done].
      destruct (load _ OriginalMB _); [|done]. simpl.
      destruct (virtualAddressToFileOffset _ _); [|done].
      destruct (cstr_at _ _); [|done]. simpl.
      case_decide; [done|]. apply patchName_quiet. }
    destruct (categorySlot _ _ _ _ _ _ args _ _) as [st1|]; [|done]. apply IH.
Qed.

Lemma sectionLoop_quiet (Image : bytes) (Sections : list SectionRef)
    (MachOObj : MachOObjectFile) (OriginalMB : bytes) (SliceOffset : Z)
    (args : CommandLineArgs) st (o : list message) :
  sectionLoop distribution Image Sections MachOObj OriginalMB SliceOffset (quiet_args args)
    (with_outs st o)
  = (fun r => (r.1, with_outs r.2 o))
      <$> sectionLoop distribution Image Sections MachOObj OriginalMB SliceOffset args st.
Proof.
  revert st. induction Sections as [|Section rest IH]; intros st; simpl; [done|].
  destruct (getName Section) as [SectionName|]; [|done].
  unfold patchClassNameSection, patchCategoryListSection.
  destruct (getContents _ _ _ _) as [Contents|];
    repeat case_decide; try apply IH.
  - rewrite classNameLoop_quiet.
    destruct (classNameLoop _ _ _ _ _ _ args _ _) as [st1|]; [apply IH|done].
  - rewrite categoryLoop_quiet.
    destruct (categoryLoop _ _ _ _ _ _ _ args _ _) as [st1|]; [apply IH|done].
Qed.

(** X9. [--quiet] changes nothing but the output: over one slice the quiet
    run returns the same error, leaves the same working buffer and the same
    generator state as the run that prints, and prints no line of its
    own. *)
Theorem patchMachOSlice_quiet (Image : bytes) (MachOObj : MachOObjectFile)
    (OriginalMB : bytes) (SliceOffset : Z) (args : CommandLineArgs) st :
  patchMachOSlice distribution Image MachOObj OriginalMB SliceOffset (quiet_args args) st
  = (fun r => (r.1, with_outs r.2 (outs st)))
      <$> patchMachOSlice distribution Image MachOObj OriginalMB SliceOffset args st.
Proof.
  unfold patchMachOSlice. rewrite <- sectionLoop_quiet. by destruct st.
Qed.

End Quiet.

(** ** Dry runs *)

Lemma parseCommandLine_dry_run (o : ParsedOptions) (dry : bool) :
  parseCommandLine (Success (with_dry_run o dry))
  = (fun args => args_dry_run args dry) <$> parseCommandLine (Success o).
Proof.
  unfold parseCommandLine, callback. simpl.
  destruct (replace_args o) as [|p [|r rest]]; [done|done|].
  by repeat case_decide.
Qed.

Section DryRun.

Context {G : Type} (distribution : G -> nat * G).

Implicit Types st : state (G:=G).

Lemma classNameLoop_dry_run (fuel : nat) (Image : bytes) (Contents : StringRef)
    (SliceOffset SectionFileOffset : Z) (args : CommandLineArgs) (dry : bool)
    (Current : Z) st :
  classNameLoop distribution fuel Image Contents SliceOffset SectionFileOffset
    (args_dry_run args dry) Current st
  = classNameLoop distribution fuel Image Contents SliceOffset SectionFileOffset
      args Current st.
Proof.
  revert Current st. induction fuel as [|fuel IH]; intros Current st; simpl; [done|].
  destruct (_ <? _); [|done]. destruct (cstr_at _ _) as [Name|]; [|done]. simpl.
  case_decide; [apply IH|]. case_decide; [apply IH|].
  change (patchName distribution CLASS (args_dry_run args dry))
    with (patchName distribution CLASS args).
  destruct (patchName _ _ _ _ _ _); [apply IH|done].
Qed.

Lemma categoryLoop_dry_run (fuel : nat) (Image OriginalMB : bytes) (Contents : StringRef)
    (MachOObj : MachOObjectFile) (SliceOffset : Z) (args : CommandLineArgs) (dry : bool)
    (i : Z) st :
  categoryLoop distribution fuel Image OriginalMB Contents MachOObj SliceOffset
    (args_dry_run args dry) i st
  = categoryLoop distribution fuel Image OriginalMB Contents MachOObj SliceOffset args i st.
Proof.
  revert i st. induction fuel as [|fuel IH]; intros i st; simpl; [done|].
  destruct (_ <=? _); [|done].
  change (categorySlot distribution Image OriginalMB Contents MachOObj SliceOffset
            (args_dry_run args dry))
    with (categorySlot distribution Image OriginalMB Contents MachOObj SliceOffset args).
  destruct (categorySlot _ _ _ _ _ _ _ _ _); [apply IH|done].
Qed.

Lemma patchMachOSlice_dry_run (Image : bytes) (MachOObj : MachOObjectFile)
    (OriginalMB : bytes) (SliceOffset : Z) (args : CommandLineArgs) (dry : bool) st :
  patchMachOSlice distribution Image MachOObj OriginalMB SliceOffset
    (args_dry_run args dry) st
  = patchMachOSlice distribution Image MachOObj OriginalMB SliceOffset args st.
Proof.
  unfold patchMachOSlice. simpl.
  generalize (print (quietMode args)
                [PatchingArchitecture (getArchName MachOObj) SliceOffset] st).
  induction (sections MachOObj) as [|Section rest IH]; intros st0; simpl; [done|].
  destruct (getName Section) as [SectionName|]; [|done].
  unfold patchClassNameSection, patchCategoryListSection.
  destruct (getContents _ _ _ _) as [Contents|];
    repeat case_decide; try apply IH.
  - rewrite classNameLoop_dry_run. destruct (classNameLoop _ _ _ _ _ _ _ _ _); [apply IH|done].
  - rewrite categoryLoop_dry_run.
    destruct (categoryLoop _ _ _ _ _ _ _ _ _ _); [apply IH|done].
Qed.

Lemma patchBinary_dry_run (Bin : Binary) (OriginalMB : bytes) (args : CommandLineArgs)
    (dry : bool) st :
  patchBinary distribution Bin OriginalMB (args_dry_run args dry) st
  = patchBinary distribution Bin OriginalMB args st.
Proof.
  unfold patchBinary. destruct Bin as [objects|MachOObj|]; [| |done].
  - f_equal. revert st. induction objects as [|ObjForArch rest IH]; intros st; simpl; [done|].
    destruct (getAsObjectFile ObjForArch) as [MachOObj|]; [|apply IH].
    rewrite patchMachOSlice_dry_run.
    destruct (patchMachOSlice _ _ _ _ _ _ _) as [[[E|] st1]|]; simpl; [apply IH|apply IH|done].
  - by rewrite patchMachOSlice_dry_run.
Qed.

(** X10. A dry run previews the real run.  When the run without [--dry-run]
    returns 0, it has written the working buffer of some final state to the
    file; the run of the same command line with [--dry-run] on the same file
    and seed reaches the same final state, prints the same lines up to the
    closing one, returns 0 as well and leaves the file as it is. *)
Theorem dry_run_previews (o : ParsedOptions) (w : World (G:=G)) (r : Run) :
  main distribution (Success (with_dry_run o false)) w = Some r ->
  exit_code r = 0 ->
  exists (args : CommandLineArgs) st,
    parseCommandLine (Success (with_dry_run o false)) = Some args /\
    file_after r = WritableMB st /\
    printed r = outs (print (quietMode args) [SuccessfullyPatched (binaryPath args)] st) /\
    main distribution (Success (with_dry_run o true)) w
    = Some {| exit_code := 0; file_after := file w;
              file_ops := [OpCreateBinary; OpGetFile];
              printed := outs (print (quietMode args) [DryRunComplete] st) |}.
Proof.
  unfold main. rewrite !parseCommandLine_dry_run.
  destruct (parseCommandLine (Success o)) as [args|]; simpl; [|by intros [= <-]].
  destruct (createBinary w) as [Bin|]; [|by intros [= <-]].
  destruct (getFile_error w); [by intros [= <-]|].
  rewrite !patchBinary_dry_run.
  destruct (patchBinary _ _ _ _ _) as [[st|[code out]]|] eqn:Hpatch; simpl; [| |done].
  - destruct (open_error w); intros [= <-]; [done|]. intros _.
    by exists (args_dry_run args false), st.
  - intros [= <-]. simpl. intros ->. unfold patchBinary in Hpatch.
    destruct Bin as [objects|MachOObj|].
    + by destruct (universalLoop _ _ _ _ _ _).
    + destruct (patchMachOSlice _ _ _ _ _ _ _) as [[[E|] st1]|]; simpl in Hpatch;
        congruence.
    + congruence.
Qed.

End DryRun.

(** X10 on the sample binary. *)
Lemma dry_run_previews_witness :
  exists r : Run,
    main sample_distribution (Success (with_dry_run (sample_options [lit "Keep"] false []) false))
      (sample_world (Success (Thin sample_thin)) None) = Some r /\
    exit_code r = 0 /\
    exists (args : CommandLineArgs) (st : state (G:=nat)),
      file_after r = WritableMB st /\
      main sample_distribution
        (Success (with_dry_run (sample_options [lit "Keep"] false []) true))
        (sample_world (Success (Thin sample_thin)) None)
      = Some {| exit_code := 0; file_after := sample_image;
                file_ops := [OpCreateBinary; OpGetFile];
                printed := outs (print (quietMode args) [DryRunComplete] st) |}.
Proof.
  eexists. split; [vm_compute; reflexivity|]. split; [reflexivity|].
  destruct (dry_run_previews sample_distribution (sample_options [lit "Keep"] false [])
              (sample_world (Success (Thin sample_thin)) None) _
              ltac:(vm_compute; reflexivity) eq_refl)
    as (args & st & _ & Hfile & _ & Hdry).
  exists args, st. split; [exact Hfile | exact Hdry].
Defined.

(** ** The command line and the exit code *)

(** X11. The configuration [parseCommandLine] lets through selects Replace
    mode, a non-empty pattern, exactly when [--replace] was given, and then
    carries the two arguments with equal lengths; without [--replace] both
    strings are empty and the run randomizes.  The flags and the exclusions
    are those of the command line. *)
Theorem parseCommandLine_mode (o : ParsedOptions) (args : CommandLineArgs) :
  parseCommandLine (Success o) = Some args ->
  (pattern args <> [] <-> replace_args o <> []) /\
  (replace_args o = [] -> pattern args = [] /\ replacement args = []) /\
  (forall p r rest, replace_args o = p :: r :: rest ->
     pattern args = p /\ replacement args = r /\ length p = length r) /\
  excludedClasses args = list_to_set (opt_exclude o) /\
  quietMode args = opt_quiet o /\ dryRun args = opt_dry_run o /\
  binaryPath args = opt_binary_to_patch o.
Proof.
  unfold parseCommandLine, callback.
  destruct (replace_args o) as [|p [|r rest]]; [|done|].
  - intros [= <-]. simpl. repeat split; done.
  - case_decide as Hp; [done|]. case_decide as Hlen; [done|].
    intros [= <-]. simpl.
    split; [done|]. split; [done|]. split; [|done].
    intros ? ? ? [= -> -> _]. repeat split. lia.
Qed.

Lemma parseCommandLine_mode_witness :
  parseCommandLine (Success (sample_options [lit "Keep"] false [lit "Foo"; lit "Bar"]))
  = Some replace_Foo_args /\
  (pattern replace_Foo_args <> []
   <-> replace_args (sample_options [lit "Keep"] false [lit "Foo"; lit "Bar"]) <> []) /\
  excludedClasses replace_Foo_args = list_to_set [lit "Keep"].
Proof.
  assert (parseCommandLine
            (Success (sample_options [lit "Keep"] false [lit "Foo"; lit "Bar"]))
          = Some replace_Foo_args) as H by reflexivity.
  destruct (parseCommandLine_mode _ _ H) as (Hmode & _ & _ & Hex & _).
  exact (conj H (conj Hmode Hex)).
Defined.

Section ExitCode.

Context {G : Type} (distribution : G -> nat * G).

(** X12. [main] returns 0 or 1, and whenever it returns 1 the file holds the
    bytes it held before and was never written: every failure, from a
    refused command line to a file that cannot be opened for writing, leaves
    the binary untouched. *)
Theorem main_failure_leaves_file (cli : Expected ParsedOptions) (w : World (G:=G))
    (r : Run) :
  main distribution cli w = Some r ->
  (exit_code r = 0 \/ exit_code r = 1) /\
  (exit_code r = 1 ->
     file_after r = file w /\ forall data, OpWrite data ∉ file_ops r).
Proof.
  unfold main.
  destruct (parseCommandLine cli) as [args|].
  2: { intros [= <-]. simpl. split; [by right|]. intros _. split; [done|absent]. }
  destruct (createBinary w) as [Bin|].
  2: { intros [= <-]. simpl. split; [by right|]. intros _. split; [done|absent]. }
  destruct (getFile_error w).
  { intros [= <-]. simpl. split; [by right|]. intros _. split; [done|absent]. }
  destruct (patchBinary _ _ _ _ _) as [[st|[code out]]|] eqn:Hpatch; simpl; [| |done].
  - destruct (dryRun args).
    { intros [= <-]. simpl. split; [by left|]. intros _. split; [done|absent]. }
    destruct (open_error w); intros [= <-]; simpl.
    + split; [by right|]. intros _. split; [done|absent].
    + split; [by left|]. done.
  - assert (code = 1) as ->.
    { unfold patchBinary in Hpatch. destruct Bin as [objects|MachOObj|].
      - by destruct (universalLoop _ _ _ _ _ _).
      - destruct (patchMachOSlice _ _ _ _ _ _ _) as [[[E|] st1]|]; simpl in Hpatch;
          congruence.
      - congruence. }
    intros [= <-]. simpl. split; [by right|]. intros _. split; [done|absent].
Qed.

End ExitCode.

(** X12 on a thin binary whose slice fails. *)
Lemma main_failure_leaves_file_witness :
  exists r : Run,
    main sample_distribution (Success (sample_options [lit "Keep"] false []))
      (sample_world (Success (Thin sample_broken)) None) = Some r /\
    exit_code r = 1 /\ file_after r = sample_image /\
    forall data, OpWrite data ∉ file_ops r.
Proof.
  eexists. split; [vm_compute; reflexivity|]. split; [reflexivity|].
  exact (proj2 (main_failure_leaves_file sample_distribution
                  (Success (sample_options [lit "Keep"] false []))
                  (sample_world (Success (Thin sample_broken)) None) _
                  ltac:(vm_compute; reflexivity)) eq_refl).
Defined.

(** ** The class-name pass *)

(** A name that starts at or before a NUL byte of the buffer ends before
    it. *)
Lemma cstr_at_before_NUL (Buf : bytes) (p : Z) (Name : bytes) (q : nat) :
  cstr_at Buf p = Some Name ->
  (Z.to_nat p <= q)%nat ->
  Buf !! q = Some NUL ->
  (Z.to_nat p + length Name <= q)%nat.
Proof.
  intros HName Hpq Hq. destruct (decide (Z.to_nat p + length Name <= q)%nat); [done|].
  exfalso. eapply cstr_at_not_NUL; [exact HName| |exact Hq]. lia.
Qed.

Section ClassNamePass.

Context {G : Type} (distribution : G -> nat * G).

Implicit Types st : state (G:=G).

(** The scan started at [Current] writes nothing below [Current]. *)
Lemma classNameLoop_below (fuel : nat) (Image : bytes) (Contents : StringRef)
    (SliceOffset SectionFileOffset : Z) (args : CommandLineArgs) (Current : Z) st st'
    (j : nat) :
  (forall c, 0 <= c < Size Contents ->
     wrap64 (wrap64 (SliceOffset + SectionFileOffset) + c) = Data Contents + c) ->
  0 <= Data Contents -> 0 <= Current ->
  classNameLoop distribution fuel Image Contents SliceOffset SectionFileOffset args
    Current st = Some st' ->
  (j < Z.to_nat (Data Contents + Current))%nat ->
  WritableMB st' !! j = WritableMB st !! j.
Proof.
  intros Hoff HD HCur Hloop Hj.
  destruct (classNameLoop_performs distribution _ _ _ _ _ _ _ _ _ Hoff HCur Hloop)
    as (ws & Hp & Hq).
  rewrite (performs_result _ _ _ _ _ Hp Hloop). simpl.
  apply apply_writes_frame. eapply Forall_impl; [exact Hq|].
  intros [p new] (c & Name & Hin & _ & Hp' & _). simpl in *.
  apply classEntries_elem in Hin as (Hc & _). lia.
Qed.

(** X16. The class-name pass writes nothing before the first byte of the
    section, and where the section's last byte is a NUL, as in a section of
    terminated strings, it writes nothing from that byte on either: the
    rest of the file is out of its reach. *)
Theorem patchClassNameSection_stays_inside (Image : bytes) (Section : SectionRef)
    (MachOObj : MachOObjectFile) (SliceOffset : Z) (args : CommandLineArgs)
    (Contents : StringRef) st st' :
  0 <= SliceOffset -> 0 <= Sec_offset Section ->
  Z.of_nat (length Image) < 2 ^ 64 ->
  getContents Image MachOObj SliceOffset Section = Success Contents ->
  patchClassNameSection distribution Image Section MachOObj SliceOffset args st = Some st' ->
  (forall j : nat, (j < Z.to_nat (Data Contents))%nat ->
     WritableMB st' !! j = WritableMB st !! j) /\
  (0 < Size Contents ->
   Image !! Z.to_nat (Data Contents + Size Contents - 1) = Some NUL ->
   forall j : nat, (Z.to_nat (Data Contents + Size Contents - 1) <= j)%nat ->
     WritableMB st' !! j = WritableMB st !! j).
Proof.
  intros Hs Ho Hlt HC. unfold patchClassNameSection. rewrite HC. intros Hloop.
  pose proof (getContents_offsets _ _ _ _ _ Hs Ho Hlt HC) as Hoff.
  destruct (classNameLoop_performs distribution _ _ _ _ _ _ _ _ _
              (fun c Hc => proj1 (Hoff c Hc)) (Z.le_refl 0) Hloop) as (ws & Hp & Hq).
  rewrite (performs_result _ _ _ _ _ Hp Hloop). simpl. split.
  - intros j Hj. apply apply_writes_frame. eapply Forall_impl; [exact Hq|].
    intros [p new] (c & Name & Hin & _ & Hp' & _). simpl in *.
    apply classEntries_elem in Hin as (Hc & _).
    destruct (Hoff c ltac:(lia)) as (_ & HD & _). lia.
  - intros HSize HNUL j Hj. apply apply_writes_frame. eapply Forall_impl; [exact Hq|].
    intros [p new] (c & Name & Hin & _ & Hp' & Hlen). simpl in *.
    apply classEntries_elem in Hin as (Hc & HName & _).
    destruct (Hoff c ltac:(lia)) as (_ & HD & _).
    assert (Z.to_nat (Data Contents + c)
            <= Z.to_nat (Data Contents + Size Contents - 1))%nat as Hle by lia.
    pose proof (cstr_at_before_NUL _ _ _ _ HName Hle HNUL). lia.
Qed.

(** In Randomize mode a patch writes letters and digits only. *)
Lemma patchName_random (k : kind) (args : CommandLineArgs) (Name : bytes) (p : Z) st st' :
  (forall g : G, ((distribution g).1 < 62)%nat) ->
  pattern args = [] ->
  patchName distribution k args Name p st = Some st' ->
  exists R : bytes,
    length R = length Name /\ Forall (fun b => b ∈ charset) R /\
    WritableMB st' = list_inserts (Z.to_nat p) R (WritableMB st) /\
    0 <= p /\ p + Z.of_nat (length Name) <= Z.of_nat (length (WritableMB st)).
Proof.
  intros Hrange Hpat. unfold patchName. rewrite Hpat. simpl.
  destruct (generateRandomString_alphanumeric distribution (length Name) (generator st)
              Hrange) as (Hlen & Hall & _).
  destruct (generateRandomString _ _ _) as [R g]. simpl in *.
  destruct (memcpy _ _ _) as [W|] eqn:Hcpy; [|done]. simpl. intros [= <-].
  apply memcpy_Some in Hcpy as (Hp0 & Hp1 & ->).
  exists R. split; [done|]. split; [done|]. split; [by destruct (quietMode args)|]. lia.
Qed.

Lemma classNameLoop_randomizes (fuel : nat) (Image : bytes) (Contents : StringRef)
    (SliceOffset SectionFileOffset : Z) (args : CommandLineArgs) (Current : Z) st st'
    (c : Z) (Name : bytes) (k : nat) :
  (forall g : G, ((distribution g).1 < 62)%nat) ->
  pattern args = [] ->
  (forall c, 0 <= c < Size Contents ->
     wrap64 (wrap64 (SliceOffset + SectionFileOffset) + c) = Data Contents + c) ->
  0 <= Data Contents -> 0 <= Current ->
  classNameLoop distribution fuel Image Contents SliceOffset SectionFileOffset args
    Current st = Some st' ->
  (c, Name) ∈ classEntries fuel Image Contents Current ->
  Name ∉ excludedClasses args ->
  (k < length Name)%nat ->
  exists b : byte,
    WritableMB st' !! (Z.to_nat (Data Contents + c) + k)%nat = Some b /\ b ∈ charset.
Proof.
  intros Hrange Hpat Hoff HD HCur Hloop Hin Hex Hk. revert Current st HCur Hloop Hin.
  induction fuel as [|fuel IH]; intros Current st HCur; simpl.
  - destruct (_ <? _); by intros _ ?%elem_of_nil.
  - destruct (Current <? Size Contents) eqn:Hcond; [|by intros _ ?%elem_of_nil].
    apply Z.ltb_lt in Hcond.
    destruct (cstr_at Image (Data Contents + Current)) as [N|] eqn:HN; [|done]. simpl.
    case_decide as Hempty; [apply IH; lia|]. case_decide as HexN.
    + intros Hloop. rewrite elem_of_cons. intros [[= -> ->]|Hin]; [done|].
      eapply IH; [|exact Hloop|exact Hin]. lia.
    + rewrite Hoff by lia.
      destruct (patchName _ _ _ _ _ st) as [st1|] eqn:Hpatch; [|done]. simpl.
      intros Hloop. rewrite elem_of_cons. intros [[= -> ->]|Hin].
      * destruct (patchName_random _ _ _ _ _ _ Hrange Hpat Hpatch)
          as (R & HlenR & Hall & HW & Hp0 & Hp1).
        assert (0 <= Current + Z.of_nat (length N) + 1) as HCur' by lia.
        rewrite (classNameLoop_below _ _ _ _ _ _ _ _ _ _ Hoff HD HCur' Hloop) by lia.
        rewrite HW, list_lookup_inserts by lia.
        replace (Z.to_nat (Data Contents + Current) + k - Z.to_nat (Data Contents + Current))%nat
          with k by lia.
        destruct (lookup_lt_is_Some_2 R k) as [b Hb]; [lia|].
        exists b. split; [done|]. rewrite Forall_forall in Hall.
        by eapply Hall, list_elem_of_lookup_2.
      * eapply IH; [|exact Hloop|exact Hin]. lia.
Qed.

(** X13. In Randomize mode, with a distribution that keeps to its range,
    every entry of a class-name section that is not excluded consists of
    letters and digits of the alphabet after the pass, over its whole
    length: no byte of the original name is left to chance. *)
Theorem patchClassNameSection_randomizes (Image : bytes) (Section : SectionRef)
    (MachOObj : MachOObjectFile) (SliceOffset : Z) (args : CommandLineArgs)
    (Contents : StringRef) st st' (c : Z) (Name : bytes) (k : nat) :
  (forall g : G, ((distribution g).1 < 62)%nat) ->
  pattern args = [] ->
  0 <= SliceOffset -> 0 <= Sec_offset Section ->
  Z.of_nat (length Image) < 2 ^ 64 ->
  getContents Image MachOObj SliceOffset Section = Success Contents ->
  patchClassNameSection distribution Image Section MachOObj SliceOffset args st = Some st' ->
  (c, Name) ∈ classEntries (Z.to_nat (Size Contents)) Image Contents 0 ->
  Name ∉ excludedClasses args ->
  (k < length Name)%nat ->
  exists b : byte,
    WritableMB st' !! (Z.to_nat (Data Contents + c) + k)%nat = Some b /\ b ∈ charset.
Proof.
  intros Hrange Hpat Hs Ho Hlt HC. unfold patchClassNameSection. rewrite HC.
  intros Hloop Hin Hex Hk.
  pose proof (getContents_offsets _ _ _ _ _ Hs Ho Hlt HC) as Hoff.
  pose proof (classEntries_elem _ _ _ _ _ _ Hin) as (Hc & _).
  destruct (Hoff c ltac:(lia)) as (_ & HD & _).
  exact (classNameLoop_randomizes _ _ _ _ _ _ 0 st st' c Name k Hrange Hpat
           (fun c' Hc' => proj1 (Hoff c' Hc')) HD (Z.le_refl 0) Hloop Hin Hex Hk).
Qed.

End ClassNamePass.

(** ** Passes that find nothing to do *)

Lemma getContents_Data (Image : bytes) (MachOObj : MachOObjectFile) (SliceOffset : Z)
    (Section : SectionRef) (Contents : StringRef) :
  0 <= SliceOffset -> 0 <= Sec_offset Section ->
  getContents Image MachOObj SliceOffset Section = Success Contents ->
  0 <= Data Contents /\
  (0 < Size Contents -> Data Contents + Size Contents <= Z.of_nat (length Image)).
Proof.
  intros Hs Ho. unfold getContents. destruct (getContents_error Section); [done|].
  intros [= <-]. simpl.
  set (avail := Z.of_nat (length (take (Z.to_nat (data_size MachOObj))
                                       (drop (Z.to_nat SliceOffset) Image)))).
  assert (avail <= Z.of_nat (length Image) - SliceOffset \/ avail = 0) as Hav.
  { unfold avail. rewrite length_take, length_drop. lia. }
  lia.
Qed.

Section NothingToDo.

Context {G : Type} (distribution : G -> nat * G).

Implicit Types st : state (G:=G).

Lemma patchName_absent (k : kind) (args : CommandLineArgs) (Name : bytes) (p : Z) st :
  pattern args <> [] ->
  ~ occurs (pattern args) Name ->
  patchName distribution k args Name p st = Some st.
Proof.
  intros Hpat Hocc. unfold patchName. rewrite bool_decide_eq_false_2 by done. simpl.
  rewrite (replaceName_spec _ _ _ Hpat). simpl.
  rewrite bool_decide_eq_false_2; [done|]. by rewrite <- occurs_find_first.
Qed.

Lemma classNameLoop_absent (fuel : nat) (Image : bytes) (Contents : StringRef)
    (SliceOffset SectionFileOffset : Z) (args : CommandLineArgs) (Current : Z) st st' :
  pattern args <> [] ->
  (forall c Name, (c, Name) ∈ classEntries fuel Image Contents Current ->
                  ~ occurs (pattern args) Name) ->
  classNameLoop distribution fuel Image Contents SliceOffset SectionFileOffset args
    Current st = Some st' ->
  WritableMB st' = WritableMB st /\ generator st' = generator st.
Proof.
  intros Hpat. revert Current st. induction fuel as [|fuel IH]; intros Current st; simpl.
  - destruct (_ <? _); [done|]. by intros _ [= <-].
  - destruct (_ <? _); [|by intros _ [= <-]].
    destruct (cstr_at Image _) as [N|]; [|done]. simpl.
    case_decide; [exact (IH _ _)|]. case_decide.
    + intros Hall Hloop.
      destruct (IH _ _ (fun c Name Hin => Hall c Name (list_elem_of_further _ _ _ Hin)) Hloop)
        as [-> ->]. done.
    + intros Hall.
      rewrite (patchName_absent CLASS args N _ st Hpat
                 (Hall Current N (list_elem_of_here _ _))).
      simpl. intros Hloop.
      exact (IH _ _ (fun c Name Hin => Hall c Name (list_elem_of_further _ _ _ Hin)) Hloop).
Qed.

(** X14. In Replace mode, when the pattern occurs in no entry of a class-name
    section, the pass over that section leaves the working buffer and the
    generator exactly as they were: a [--replace] whose pattern the binary
    does not hold changes no byte. *)
Theorem patchClassNameSection_absent_pattern (Image : bytes) (Section : SectionRef)
    (MachOObj : MachOObjectFile) (SliceOffset : Z) (args : CommandLineArgs)
    (Contents : StringRef) st st' :
  pattern args <> [] ->
  getContents Image MachOObj SliceOffset Section = Success Contents ->
  (forall c Name,
     (c, Name) ∈ classEntries (Z.to_nat (Size Contents)) Image Contents 0 ->
     ~ occurs (pattern args) Name) ->
  patchClassNameSection distribution Image Section MachOObj SliceOffset args st = Some st' ->
  WritableMB st' = WritableMB st /\ generator st' = generator st.
Proof.
  intros Hpat HC Hall. unfold patchClassNameSection. rewrite HC.
  by apply classNameLoop_absent.
Qed.

Lemma classNameLoop_padding (fuel : nat) (Image : bytes) (Contents : StringRef)
    (SliceOffset SectionFileOffset : Z) (args : CommandLineArgs) (Current : Z) st :
  (forall c, 0 <= c < Size Contents ->
             Image !! Z.to_nat (Data Contents + c) = Some NUL) ->
  0 <= Data Contents -> 0 <= Current ->
  (Z.to_nat (Size Contents - Current) <= fuel)%nat ->
  classNameLoop distribution fuel Image Contents SliceOffset SectionFileOffset args
    Current st = Some st.
Proof.
  intros HNUL HD. revert Current. induction fuel as [|fuel IH]; intros Current HCur Hfuel;
    simpl.
  - destruct (Current <? Size Contents) eqn:Hcond; [|done]. apply Z.ltb_lt in Hcond. lia.
  - destruct (Current <? Size Contents) eqn:Hcond; [|done]. apply Z.ltb_lt in Hcond.
    pose proof (HNUL Current ltac:(lia)) as Hhere.
    pose proof (lookup_lt_Some _ _ _ Hhere) as Hlt.
    unfold cstr_at. rewrite decide_True by lia. simpl.
    rewrite (drop_S _ _ _ Hhere). simpl. apply IH; lia.
Qed.

(** X8. A class-name section that holds NUL bytes only, padding or nothing
    at all, is passed over one byte at a time: the pass returns and changes
    neither the buffer nor the generator nor the output. *)
Theorem patchClassNameSection_padding (Image : bytes) (Section : SectionRef)
    (MachOObj : MachOObjectFile) (SliceOffset : Z) (args : CommandLineArgs)
    (Contents : StringRef) st :
  0 <= SliceOffset -> 0 <= Sec_offset Section ->
  getContents Image MachOObj SliceOffset Section = Success Contents ->
  (forall c, 0 <= c < Size Contents ->
             Image !! Z.to_nat (Data Contents + c) = Some NUL) ->
  patchClassNameSection distribution Image Section MachOObj SliceOffset args st = Some st.
Proof.
  intros Hs Ho HC HNUL. unfold patchClassNameSection. rewrite HC.
  destruct (getContents_Data _ _ _ _ _ Hs Ho HC) as (HD & _).
  apply classNameLoop_padding; [done|done|done|lia].
Qed.

Lemma categoryLoop_unresolved (fuel : nat) (Image OriginalMB : bytes) (Contents : StringRef)
    (MachOObj : MachOObjectFile) (SliceOffset : Z) (args : CommandLineArgs) (i : Z) st :
  (forall VA, virtualAddressToFileOffset MachOObj VA = None) ->
  0 <= Data Contents ->
  Data Contents + Size Contents <= Z.of_nat (length Image) ->
  Size Contents < 2 ^ 32 - (if is64Bit MachOObj then 8 else 4) ->
  0 <= i <= Size Contents ->
  (Z.to_nat (Size Contents - i) <= fuel)%nat ->
  categoryLoop distribution fuel Image OriginalMB Contents MachOObj SliceOffset args i st
  = Some st.
Proof.
  intros Hnone HD HDS HSize. revert i. induction fuel as [|fuel IH]; intros i Hi Hfuel; simpl.
  - destruct (_ <=? _) eqn:Hcond; [|done]. apply Z.leb_le in Hcond.
    unfold wrap32 in Hcond.
    destruct (is64Bit MachOObj); rewrite Z.mod_small in Hcond by lia; lia.
  - destruct (_ <=? _) eqn:Hcond; [|done]. apply Z.leb_le in Hcond.
    unfold wrap32 in *.
    assert (categorySlot distribution Image OriginalMB Contents MachOObj SliceOffset args i st
            = Some st) as ->.
    { unfold categorySlot, load.
      destruct (is64Bit MachOObj); rewrite Z.mod_small in Hcond by lia;
        rewrite decide_True by lia; simpl; by rewrite Hnone. }
    simpl. destruct (is64Bit MachOObj); rewrite Z.mod_small in * by lia; apply IH; lia.
Qed.

(** X15. Where no address resolves, as in a slice without segment commands,
    the category pass over contents of fewer than [2^32 - PtrSize] bytes
    reads its slots, skips every one of them and returns the state as it
    was: an unresolved address is no error.  On contents of that size or
    more the 32-bit counter of line 217 wraps before the condition of the
    loop fails, and the pass has no result.  The size of the file does not
    matter. *)
Theorem patchCategoryListSection_unresolved (Image : bytes) (Section : SectionRef)
    (MachOObj : MachOObjectFile) (OriginalMB : bytes) (SliceOffset : Z)
    (args : CommandLineArgs) st :
  (forall VA, virtualAddressToFileOffset MachOObj VA = None) ->
  0 <= SliceOffset -> 0 <= Sec_offset Section ->
  patchCategoryListSection distribution Image Section MachOObj OriginalMB SliceOffset
    args st
  = match getContents Image MachOObj SliceOffset Section with
    | Failure _ => Some st
    | Success Contents =>
        if decide (Size Contents < 2 ^ 32 - (if is64Bit MachOObj then 8 else 4))
        then Some st else None
    end.
Proof.
  intros Hnone Hs Ho. unfold patchCategoryListSection.
  destruct (getContents Image MachOObj SliceOffset Section) as [Contents|] eqn:HC; [|done].
  destruct (getContents_Data _ _ _ _ _ Hs Ho HC) as (HD & HDS).
  case_decide as HSize.
  - destruct (decide (0 < Size Contents)) as [Hpos|Hneg].
    + apply categoryLoop_unresolved; try done; lia.
    + destruct (Z.to_nat (Size Contents)); simpl;
        rewrite (proj2 (Z.leb_gt _ _)); try done;
        unfold wrap32; destruct (is64Bit MachOObj); rewrite Z.mod_small; lia.
  - apply categoryLoop_wraps; [lia|lia|by destruct (is64Bit MachOObj)].
Qed.

End NothingToDo.

(** ** Binaries without Objective-C sections *)

Section NoTargets.

Context {G : Type} (distribution : G -> nat * G).

Implicit Types st : state (G:=G).

Lemma sectionLoop_other (Image : bytes) (Sections : list SectionRef)
    (MachOObj : MachOObjectFile) (OriginalMB : bytes) (SliceOffset : Z)
    (args : CommandLineArgs) st :
  Forall (fun Section => exists SectionName,
            getName Section = Success SectionName /\
            SectionName <> lit "__objc_classname" /\
            SectionName <> lit "__objc_catlist") Sections ->
  sectionLoop distribution Image Sections MachOObj OriginalMB SliceOffset args st
  = Some (None, st).
Proof.
  induction 1 as [|Section rest (SectionName & HN & H1 & H2) _ IH]; simpl; [done|].
  rewrite HN. by rewrite !decide_False by done.
Qed.

(** X17. A thin binary none of whose sections is named [__objc_classname]
    or [__objc_catlist] is no error: whatever those sections hold, [main]
    changes no byte, in either mode, and returns 0 unless the file cannot be
    opened for writing; outside a dry run the file is written back with the
    bytes it had. *)
Theorem main_without_target_sections (cli : Expected ParsedOptions) (w : World (G:=G))
    (args : CommandLineArgs) (MachOObj : MachOObjectFile) :
  parseCommandLine cli = Some args ->
  createBinary w = Success (Thin MachOObj) ->
  getFile_error w = None ->
  Forall (fun Section => exists SectionName,
            getName Section = Success SectionName /\
            SectionName <> lit "__objc_classname" /\
            SectionName <> lit "__objc_catlist") (sections MachOObj) ->
  exists r : Run,
    main distribution cli w = Some r /\
    file_after r = file w /\
    (dryRun args = true \/ open_error w = None -> exit_code r = 0) /\
    (dryRun args = false -> open_error w = None -> OpWrite (file w) ∈ file_ops r).
Proof.
  intros Hargs HBin Hget Hsec. unfold main, patchBinary, patchMachOSlice.
  rewrite Hargs, HBin, Hget, (sectionLoop_other _ _ _ _ _ _ _ Hsec). simpl.
  destruct (dryRun args).
  - eexists. split; [done|]. simpl. repeat split; try done.
  - destruct (open_error w) as [E|]; eexists; (split; [done|]); simpl.
    + repeat split; try done. by intros [|].
    + repeat split; try done. intros _ _. rewrite !elem_of_cons. tauto.
Qed.

(** X18. The members of a universal binary are processed in order, each
    from the state the members before it left, whether these failed to
    parse, failed to patch or succeeded: processing [xs ++ ys] is processing
    [xs] and then [ys]. *)
Theorem universalLoop_app (Image : bytes) (xs ys : list ObjectForArch) (OriginalMB : bytes)
    (args : CommandLineArgs) st :
  universalLoop distribution Image (xs ++ ys) OriginalMB args st
  = universalLoop distribution Image xs OriginalMB args st
    ≫= universalLoop distribution Image ys OriginalMB args.
Proof.
  revert st. induction xs as [|ObjForArch rest IH]; intros st; simpl; [done|].
  destruct (getAsObjectFile ObjForArch) as [MachOObj|]; [|apply IH].
  destruct (patchMachOSlice _ _ _ _ _ _ _) as [[[E|] st1]|]; simpl; [apply IH|apply IH|done].
Qed.

End NoTargets.

(** * The further properties on the sample inputs *)

Lemma sample_entries :
  classEntries (Z.to_nat (Size classname_contents)) sample_image classname_contents 0
  = [(0, lit "Keep"); (5, lit "FooBarFoo")].
Proof. vm_compute. reflexivity. Qed.

Lemma sample_bounds :
  0 <= 0 /\ 0 <= Sec_offset sample_classname /\ Z.of_nat (length sample_image) < 2 ^ 64.
Proof. repeat split; vm_compute; congruence. Qed.


(** X7 on the sample: after the run the file has its 31 bytes and its NUL
    bytes where they were. *)
Lemma main_keeps_strings_witness :
  exists r : Run,
    main sample_distribution (Success (sample_options [lit "Keep"] false []))
      (sample_world (Success (Thin sample_thin)) None) = Some r /\
    file_after r <> sample_image /\
    length (file_after r) = 31%nat /\
    (forall j : nat, sample_image !! j = Some NUL -> file_after r !! j = Some NUL).
Proof.
  eexists. split; [vm_compute; reflexivity|]. split; [vm_compute; discriminate|].
  destruct sample_bounds as (_ & _ & H2).
  assert (wf_binary (Thin sample_thin)) as Hwf.
  { unfold wf_binary, wf_object. simpl.
    repeat (apply Forall_cons; split); simpl; try lia; done. }
  exact (proj2 (main_keeps_strings sample_distribution
                  (Success (sample_options [lit "Keep"] false []))
                  (sample_world (Success (Thin sample_thin)) None) (Thin sample_thin) _
                  eq_refl Hwf H2 ltac:(vm_compute; reflexivity))).
Defined.

(** X8 on the sample: the six NUL bytes at offset 2 taken as a class-name
    section. *)
Lemma patchClassNameSection_padding_witness :
  getContents sample_image sample_thin 0 sample_padding = Success padding_contents /\
  (forall c, 0 <= c < Size padding_contents ->
             sample_image !! Z.to_nat (Data padding_contents + c) = Some NUL) /\
  patchClassNameSection sample_distribution sample_image sample_padding sample_thin 0
    randomize_args (sample_state sample_image) = Some (sample_state sample_image).
Proof.
  assert (getContents sample_image sample_thin 0 sample_padding = Success padding_contents)
    as H1 by (vm_compute; reflexivity).
  assert (forall c, 0 <= c < Size padding_contents ->
            sample_image !! Z.to_nat (Data padding_contents + c) = Some NUL) as H2.
  { intros c Hc. simpl in Hc.
    assert (c = 0 \/ c = 1 \/ c = 2 \/ c = 3 \/ c = 4 \/ c = 5) as Hcases by lia.
    destruct Hcases as [->|[->|[->|[->|[->| ->]]]]]; reflexivity. }
  refine (conj H1 (conj H2 _)).
  apply (patchClassNameSection_padding sample_distribution sample_image sample_padding
           sample_thin 0 randomize_args padding_contents (sample_state sample_image)
           (Z.le_refl 0) ltac:(vm_compute; congruence) H1 H2).
Defined.

Lemma FooBarFoo_not_excluded : lit "FooBarFoo" ∉ excludedClasses randomize_args.
Proof. apply (bool_decide_unpack _). vm_compute. exact I. Qed.

(** X13 on the sample: the first byte of ["FooBarFoo"] at offset 21 is a
    letter or digit after the pass. *)
Lemma patchClassNameSection_randomizes_witness :
  pattern randomize_args = [] /\
  patchClassNameSection sample_distribution sample_image sample_classname sample_thin 0
    randomize_args (sample_state sample_image) = Some after_classname /\
  exists b : byte, WritableMB after_classname !! 21%nat = Some b /\ b ∈ charset.
Proof.
  destruct sample_bounds as (H0 & H1 & H2).
  assert (patchClassNameSection sample_distribution sample_image sample_classname sample_thin
            0 randomize_args (sample_state sample_image) = Some after_classname) as H3
    by (vm_compute; reflexivity).
  assert ((5, lit "FooBarFoo")
          ∈ classEntries (Z.to_nat (Size classname_contents)) sample_image
              classname_contents 0) as H4.
  { rewrite sample_entries. apply list_elem_of_further, list_elem_of_here. }
  refine (conj eq_refl (conj H3 _)).
  apply (patchClassNameSection_randomizes sample_distribution sample_image sample_classname
           sample_thin 0 randomize_args classname_contents (sample_state sample_image)
           after_classname 5 (lit "FooBarFoo") 0 sample_distribution_range eq_refl H0 H1 H2
           ltac:(vm_compute; reflexivity) H3 H4 FooBarFoo_not_excluded).
  vm_compute. lia.
Defined.

(** X14 on the sample: the pattern ["Zzz"] occurs in neither entry. *)
Lemma patchClassNameSection_absent_pattern_witness :
  pattern replace_Zzz_args <> [] /\
  exists st' : state (G:=nat),
    patchClassNameSection sample_distribution sample_image sample_classname sample_thin 0
      replace_Zzz_args (sample_state sample_image) = Some st' /\
    WritableMB st' = sample_image /\ generator st' = 5%nat.
Proof.
  assert (pattern replace_Zzz_args <> []) as H1 by discriminate.
  assert (forall c Name,
            (c, Name) ∈ classEntries (Z.to_nat (Size classname_contents)) sample_image
                           classname_contents 0 ->
            ~ occurs (pattern replace_Zzz_args) Name) as H2.
  { intros c Name. rewrite sample_entries, !elem_of_cons, elem_of_nil.
    intros [[= -> ->]|[[= -> ->]|[]]]; rewrite occurs_find_first; vm_compute;
      intros [? [=]]. }
  split; [exact H1|]. eexists. split; [vm_compute; reflexivity|].
  apply (patchClassNameSection_absent_pattern sample_distribution sample_image
           sample_classname sample_thin 0 replace_Zzz_args classname_contents
           (sample_state sample_image) _ H1 ltac:(vm_compute; reflexivity) H2).
  vm_compute. reflexivity.
Defined.

(** X15 on a slice without segment commands and a category list of eight
    bytes. *)
Lemma patchCategoryListSection_unresolved_witness :
  (forall VA, virtualAddressToFileOffset sample_unmapped VA = None) /\
  patchCategoryListSection sample_distribution sample_image sample_catlist sample_unmapped
    sample_image 0 randomize_args (sample_state sample_image)
  = Some (sample_state sample_image).
Proof.
  assert (forall VA, virtualAddressToFileOffset sample_unmapped VA = None) as H
    by (intros VA; reflexivity).
  refine (conj H _).
  rewrite (patchCategoryListSection_unresolved sample_distribution sample_image sample_catlist
             sample_unmapped sample_image 0 randomize_args (sample_state sample_image) H
             (Z.le_refl 0) (Z.le_refl 0)).
  vm_compute. reflexivity.
Defined.

(** X16 on the sample: the class-name section covers offsets 16 to 30, its
    last byte is a NUL, and the pass leaves the pointers before it and the
    byte at offset 30 alone. *)
Lemma patchClassNameSection_stays_inside_witness :
  sample_image !! 30%nat = Some NUL /\
  patchClassNameSection sample_distribution sample_image sample_classname sample_thin 0
    randomize_args (sample_state sample_image) = Some after_classname /\
  (forall j : nat, (j < 16)%nat -> WritableMB after_classname !! j = sample_image !! j) /\
  (forall j : nat, (30 <= j)%nat -> WritableMB after_classname !! j = sample_image !! j).
Proof.
  destruct sample_bounds as (H0 & H1 & H2).
  assert (patchClassNameSection sample_distribution sample_image sample_classname sample_thin
            0 randomize_args (sample_state sample_image) = Some after_classname) as H3
    by (vm_compute; reflexivity).
  destruct (patchClassNameSection_stays_inside sample_distribution sample_image
              sample_classname sample_thin 0 randomize_args classname_contents
              (sample_state sample_image) after_classname H0 H1 H2
              ltac:(vm_compute; reflexivity) H3) as (Hbefore & Hafter).
  refine (conj eq_refl (conj H3 (conj Hbefore _))).
  apply Hafter; [vm_compute; reflexivity | reflexivity].
Defined.

(** X17 on the sample bytes under a section named [__text]. *)
Lemma main_without_target_sections_witness :
  exists r : Run,
    main sample_distribution (Success (sample_options [] false []))
      (sample_world (Success (Thin (sample_object [sample_text]))) None) = Some r /\
    file_after r = sample_image /\ exit_code r = 0 /\
    OpWrite sample_image ∈ file_ops r.
Proof.
  assert (Forall (fun Section => exists SectionName,
                    getName Section = Success SectionName /\
                    SectionName <> lit "__objc_classname" /\
                    SectionName <> lit "__objc_catlist")
            (sections (sample_object [sample_text]))) as Hsec.
  { apply Forall_singleton. exists (lit "__text"). repeat split; discriminate. }
  destruct (main_without_target_sections sample_distribution
              (Success (sample_options [] false []))
              (sample_world (Success (Thin (sample_object [sample_text]))) None)
              (sample_args [] false false [] []) (sample_object [sample_text])
              eq_refl eq_refl eq_refl Hsec) as (r & Hr & Hfile & Hexit & Hwrite).
  exists r. split; [exact Hr|]. split; [exact Hfile|].
  split; [apply Hexit; by right | by apply Hwrite].
Defined.
